(** * Gamingflix Steam 2FA widget: the request lifecycle of [App]

    A shallow embedding of the React component [App] and of
    [Steam2FASimulator]: the component's state and refs are a record, the
    browser's timer table, clock and local storage are explicit fields of a
    [World], every handler and timer callback is a function on [World], and
    the event loop is the step function [step].

    Conventions.
    - [Date.now()] is the field [clock]; within one handler or callback all
      its readings agree (the code runs in well under a millisecond).
    - JavaScript numbers that are integers in every run (times, counters)
      are [Z]; the progress fraction and the values of [Math.random()] are
      rationals [Q]. Arithmetic on them is exact; a literal that is
      compared with a draw is the double it denotes.
    - Timer handles are [positive]: browsers hand out integers greater
      than zero, so a stored handle is always truthy.
    - A timer may fire at its due time or later, never early. [step] lets
      any due timer fire; a run is in due order when each timer that fires
      is one that was due first ([inOrder]), which is how a browser picks
      among the timers of a page that was held up.
    - A handler reads the state of the latest render, and React renders
      again after every change of state, so handlers read the current
      [App]. What a render puts on the page stays there until the next
      render: the functions on what [App] renders give the output of a
      render that takes place in the world they are applied to. *)

From Stdlib Require Import ZArith QArith Qround Qminmax List String Ascii Bool Lia.
From Stdlib Require Import DecimalString.
Import ListNotations.

Open Scope string_scope.
Open Scope Z_scope.

(** ** Data model *)

(** [APP_STATES] / [AppState]. *)
Inductive AppState : Type := IDLE | SEARCHING | FOUND | SUCCESS | ERROR.

Definition AppState_eqb (a b : AppState) : bool :=
  match a, b with
  | IDLE, IDLE | SEARCHING, SEARCHING | FOUND, FOUND
  | SUCCESS, SUCCESS | ERROR, ERROR => true
  | _, _ => false
  end.

(** The [status] field of a history entry: ['success' | 'error']. *)
Inductive Status : Type := success | error.

(** [interface CodeRequest]; the [Date] of [timestamp] is its epoch time in
    milliseconds. *)
Record CodeRequest : Type := mkCodeRequest {
  id : string;
  code : string;
  timestamp : Z;
  status : Status;
  searchTime : Z
}.

(** The [useState] cells and the two [useRef] cells of [App]. *)
Record App : Type := mkApp {
  state : AppState;
  currentCode : string;
  progress : Q;
  timeRemaining : Z;
  history : list CodeRequest;
  showHistory : bool;
  notification : string;
  lastRequestTime : Z;
  intervalRef : option positive;
  timeoutRef : option positive
}.

(** What a pending timer runs when it fires.  The [await] in
    [requestSteamCode] suspends on the [setTimeout] inside [simulateSearch];
    the rest of both functions is the callback [LookupDelay]. *)
Inductive Callback : Type :=
| ClearNotification                 (* () => setNotification('') *)
| ProgressTick (startTime : Z)      (* the setInterval body *)
| TimeoutGuard                      (* the 45 s setTimeout body *)
| LookupDelay (searchTime : Q)      (* resolve, then the code after the awaits *)
| AutoSuccess.                      (* () => setState(APP_STATES.SUCCESS) *)

(** An entry of the browser's timer table; [every] is the period of a
    [setInterval] timer and [None] for a [setTimeout] one. *)
Record Timer : Type := mkTimer {
  handle : positive;
  due : Z;
  every : option Z;
  callback : Callback
}.

(** The value of a JSON text, as far as the program looks at it. An array
    holds records of the shape the program writes (the timestamp stands for
    its ISO-8601 text); arrays of other things are not modelled. *)
Inductive json : Type :=
| JArray (items : list CodeRequest)
| JOther.                           (* null, a number, a string, an object *)

(** A string kept in local storage, up to what the code does with it: test
    it for truthiness and hand it to [JSON.parse]. *)
Inductive text : Type :=
| Empty                             (* the empty string, which is falsy *)
| Malformed                         (* JSON.parse throws a SyntaxError *)
| Wellformed (v : json).            (* JSON.parse returns v *)

Record World : Type := mkWorld {
  app : App;
  timers : list Timer;
  nextHandle : positive;
  clock : Z;
  storage : option text             (* localStorage['steam-2fa-history'] *)
}.

(** Exceptions that escape to the caller. *)
Inductive Exn : Type := SyntaxError | TypeError | LookupError (message : string).

Inductive Result (A : Type) : Type :=
| Ok (a : A)
| Throws (e : Exn).
Arguments Ok {A} a.
Arguments Throws {A} e.

(** ** React state setters *)

Definition onApp (f : App -> App) (w : World) : World :=
  mkWorld (f (app w)) (timers w) (nextHandle w) (clock w) (storage w).

Definition setState (s : AppState) : World -> World :=
  onApp (fun a => mkApp s (currentCode a) (progress a) (timeRemaining a)
    (history a) (showHistory a) (notification a) (lastRequestTime a)
    (intervalRef a) (timeoutRef a)).

Definition setCurrentCode (c : string) : World -> World :=
  onApp (fun a => mkApp (state a) c (progress a) (timeRemaining a)
    (history a) (showHistory a) (notification a) (lastRequestTime a)
    (intervalRef a) (timeoutRef a)).

Definition setProgress (p : Q) : World -> World :=
  onApp (fun a => mkApp (state a) (currentCode a) p (timeRemaining a)
    (history a) (showHistory a) (notification a) (lastRequestTime a)
    (intervalRef a) (timeoutRef a)).

Definition setTimeRemaining (t : Z) : World -> World :=
  onApp (fun a => mkApp (state a) (currentCode a) (progress a) t
    (history a) (showHistory a) (notification a) (lastRequestTime a)
    (intervalRef a) (timeoutRef a)).

(** [setHistory] is only ever called with an updater function or, at
    start-up, with a value (a constant updater). *)
Definition setHistory (f : list CodeRequest -> list CodeRequest) : World -> World :=
  onApp (fun a => mkApp (state a) (currentCode a) (progress a) (timeRemaining a)
    (f (history a)) (showHistory a) (notification a) (lastRequestTime a)
    (intervalRef a) (timeoutRef a)).

Definition setShowHistory (b : bool) : World -> World :=
  onApp (fun a => mkApp (state a) (currentCode a) (progress a) (timeRemaining a)
    (history a) b (notification a) (lastRequestTime a)
    (intervalRef a) (timeoutRef a)).

Definition setNotification (m : string) : World -> World :=
  onApp (fun a => mkApp (state a) (currentCode a) (progress a) (timeRemaining a)
    (history a) (showHistory a) m (lastRequestTime a)
    (intervalRef a) (timeoutRef a)).

Definition setLastRequestTime (t : Z) : World -> World :=
  onApp (fun a => mkApp (state a) (currentCode a) (progress a) (timeRemaining a)
    (history a) (showHistory a) (notification a) t
    (intervalRef a) (timeoutRef a)).

Definition set_intervalRef (r : option positive) : World -> World :=
  onApp (fun a => mkApp (state a) (currentCode a) (progress a) (timeRemaining a)
    (history a) (showHistory a) (notification a) (lastRequestTime a)
    r (timeoutRef a)).

Definition set_timeoutRef (r : option positive) : World -> World :=
  onApp (fun a => mkApp (state a) (currentCode a) (progress a) (timeRemaining a)
    (history a) (showHistory a) (notification a) (lastRequestTime a)
    (intervalRef a) r).

(** ** The browser: clock, timers, random numbers, storage *)

Definition Date_now (w : World) : Z := clock w.

(** [Number.prototype.toString] on an integer. *)
Definition toString (n : Z) : string := NilZero.string_of_int (Z.to_int n).

Definition addTimer (cb : Callback) (delay : Z) (period : option Z)
    (w : World) : positive * World :=
  let h := nextHandle w in
  (h, mkWorld (app w)
        (timers w ++ [mkTimer h (clock w + Z.max delay 0) period cb])
        (Pos.succ h) (clock w) (storage w)).

Definition setTimeout (cb : Callback) (delay : Z) : World -> positive * World :=
  addTimer cb delay None.

Definition setInterval (cb : Callback) (delay : Z) : World -> positive * World :=
  addTimer cb delay (Some delay).

Definition hasHandle (h : positive) (t : Timer) : bool := Pos.eqb (handle t) h.

(** [clearTimeout] and [clearInterval] share one table of handles; a null
    handle clears nothing. *)
Definition clearTimer (r : option positive) (w : World) : World :=
  match r with
  | None => w
  | Some h =>
      mkWorld (app w) (filter (fun t => negb (hasHandle h t)) (timers w))
        (nextHandle w) (clock w) (storage w)
  end.

Definition clearInterval := clearTimer.
Definition clearTimeout := clearTimer.

(** A computation that draws from [Math.random()]: the draws of one
    callback are handed to it as a list, consumed front to back. *)
Definition Rand (A : Type) : Type := list Q -> A * list Q.

Definition ret {A : Type} (a : A) : Rand A := fun rnd => (a, rnd).

Definition bind {A B : Type} (m : Rand A) (k : A -> Rand B) : Rand B :=
  fun rnd => let (a, rnd') := m rnd in k a rnd'.

Notation "x <- m ;; k" := (bind m (fun x => k))
  (at level 61, m at next level, right associativity).

Definition Math_random : Rand Q :=
  fun rnd => match rnd with
             | [] => (0%Q, [])
             | r :: rnd' => (r, rnd')
             end.

Definition Math_floor (q : Q) : Z := Qfloor q.

(** [Math.round]: to the nearest integer, halves upwards. *)
Definition Math_round (q : Q) : Z := Qfloor (q + (1 # 2)).

Definition Qlt_bool (x y : Q) : bool := negb (Qle_bool y x).

(** [String.prototype.charAt]: the empty string out of range. *)
Definition charAt (s : string) (i : Z) : string :=
  if (i <? 0)%Z then ""
  else match String.get (Z.to_nat i) s with
       | Some c => String c ""
       | None => ""
       end.

(** ** [class Steam2FASimulator] *)

(** The value [simulateSearch] resolves with. *)
Record SearchResult : Type := mkSearchResult {
  result_code : string;
  result_searchTime : Z
}.

Module Steam2FASimulator.

Definition chars : string := "ABCDEFGHIJKLMNOPQRSTUVWXYZ0123456789".

(** The [for] loop of [generateRandomCode], with [n] rounds left. *)
Fixpoint generateRandomCode_loop (n : nat) (result : string) : Rand string :=
  match n with
  | O => ret result
  | S n' =>
      r <- Math_random ;;
      generateRandomCode_loop n'
        (result ++ charAt chars
           (Math_floor (r * inject_Z (Z.of_nat (String.length chars)))))
  end.

Definition generateRandomCode : Rand string := generateRandomCode_loop 5 "".

(** [simulateSearch] up to its [await]: the time it is going to sleep. *)
Definition simulateSearch_searchTime : Rand Q :=
  r <- Math_random ;; ret (r * 6000 + 2000)%Q.

(** The number the literal [0.95] denotes: the double next to 95/100,
    which is 4278419646001971 / 2^52, a little less than 95/100. *)
Definition literal_0_95 : Q := 4278419646001971 # 4503599627370496.

(** [simulateSearch] from its [await] on: 95% of the draws succeed. The
    draw and the literal are doubles, and [<] compares them exactly. *)
Definition simulateSearch_resume (searchTime : Q) : Rand (Result SearchResult) :=
  r <- Math_random ;;
  if Qlt_bool r literal_0_95 then
    c <- generateRandomCode ;;
    ret (Ok (mkSearchResult c (Math_round searchTime)))
  else
    ret (Throws (LookupError "Código não encontrado")).

End Steam2FASimulator.

(** ** [function App] *)

Definition initialApp : App := mkApp IDLE "" 0 0 [] false "" 0 None None.

(** [showNotification]. *)
Definition showNotification (message : string) (w : World) : World :=
  let w := setNotification message w in
  snd (setTimeout ClearNotification 3000 w).

(** [canRequestCode]. *)
Definition canRequestCode (w : World) : bool :=
  let now := Date_now w in
  now - lastRequestTime (app w) >? 60000.

(** The updater handed to [setHistory] by all three outcomes:
    [prev => [newRequest, ...prev.slice(0, 9)]]. *)
Definition appendHistory (newRequest : CodeRequest) (prev : list CodeRequest)
    : list CodeRequest :=
  newRequest :: firstn 9 prev.

(** [requestSteamCode] up to its [await]. The delay of the timer inside
    [simulateSearch] is cut to an integer by the browser. *)
Definition requestSteamCode (rnd : list Q) (w : World) : World :=
  if negb (canRequestCode w) then
    showNotification "Aguarde 1 minuto antes de solicitar novamente" w
  else if AppState_eqb (state (app w)) SEARCHING then w
  else
    let w := setState SEARCHING w in
    let w := setCurrentCode "" w in
    let w := setProgress 0 w in
    let w := setTimeRemaining 45 w in
    let w := setLastRequestTime (Date_now w) w in
    let startTime := Date_now w in
    let (i, w) := setInterval (ProgressTick startTime) 100 w in
    let w := set_intervalRef (Some i) w in
    let (t, w) := setTimeout TimeoutGuard 45000 w in
    let w := set_timeoutRef (Some t) w in
    let searchTime := fst (Steam2FASimulator.simulateSearch_searchTime rnd) in
    snd (setTimeout (LookupDelay searchTime) (Math_floor searchTime) w).

(** The body of the [setInterval] callback. *)
Definition progressTick (startTime : Z) (w : World) : World :=
  let elapsed := Date_now w - startTime in
  let progressPercent := Qmin ((inject_Z elapsed / 45000) * 100) 100 in
  let remaining := Z.max (45 - elapsed / 1000) 0 in
  let w := setProgress progressPercent w in
  let w := setTimeRemaining remaining w in
  if remaining <=? 0 then
    let w := clearInterval (intervalRef (app w)) w in
    let w := setState ERROR w in
    let w := showNotification "Timeout: Código não encontrado em 45 segundos" w in
    let newRequest :=
      mkCodeRequest (toString (Date_now w)) "TIMEOUT" (Date_now w) error 45000 in
    setHistory (appendHistory newRequest) w
  else w.

(** The body of the 45 s [setTimeout] callback. *)
Definition timeoutGuard (w : World) : World :=
  let w := clearInterval (intervalRef (app w)) w in
  setState ERROR w.

(** [requestSteamCode] from its [await] on: the [try] body when the lookup
    resolved, the [catch] body when it threw. *)
Definition lookupSettled (outcome : Result SearchResult) (w : World) : World :=
  match outcome with
  | Ok result =>
      let w := clearInterval (intervalRef (app w)) w in
      let w := clearTimeout (timeoutRef (app w)) w in
      let w := setCurrentCode (result_code result) w in
      let w := setState FOUND w in
      let w := setProgress 100 w in
      let w := showNotification "Código encontrado com sucesso!" w in
      let newRequest :=
        mkCodeRequest (toString (Date_now w)) (result_code result)
          (Date_now w) success (result_searchTime result) in
      let w := setHistory (appendHistory newRequest) w in
      snd (setTimeout AutoSuccess 30000 w)
  | Throws _ =>
      let w := clearInterval (intervalRef (app w)) w in
      let w := clearTimeout (timeoutRef (app w)) w in
      let w := setState ERROR w in
      let w := showNotification "Erro: Não foi possível encontrar o código" w in
      let newRequest :=
        mkCodeRequest (toString (Date_now w)) "ERROR" (Date_now w) error 0 in
      setHistory (appendHistory newRequest) w
  end.

(** [resetInterface]. *)
Definition resetInterface (w : World) : World :=
  let w := setState IDLE w in
  let w := setCurrentCode "" w in
  let w := setProgress 0 w in
  let w := setTimeRemaining 0 w in
  let w := match intervalRef (app w) with
           | Some h => clearInterval (Some h) w
           | None => w
           end in
  match timeoutRef (app w) with
  | Some h => clearTimeout (Some h) w
  | None => w
  end.

(** The [onClick] of the history button. *)
Definition toggleHistory (w : World) : World :=
  setShowHistory (negb (showHistory (app w))) w.

(** The first effect: load the history from local storage. *)
Definition loadHistory (w : World) : Result World :=
  let savedHistory := storage w in
  match savedHistory with
  | None => Ok w
  | Some Empty => Ok w
  | Some Malformed => Throws SyntaxError
  | Some (Wellformed JOther) => Throws TypeError
  | Some (Wellformed (JArray parsed)) =>
      Ok (setHistory (fun _ =>
            map (fun item => mkCodeRequest (id item) (code item)
                               (timestamp item) (status item) (searchTime item))
                parsed) w)
  end.

(** The second effect: save the history, unless it is empty. *)
Definition saveHistory (w : World) : World :=
  if (0 <? Z.of_nat (List.length (history (app w))))%Z then
    mkWorld (app w) (timers w) (nextHandle w) (clock w)
      (Some (Wellformed (JArray (history (app w)))))
  else w.

(** Loading the page at time [now] over the stored text [stored]: the
    first render and its effects. An exception thrown by an effect is not
    caught anywhere, and React then takes the component down. *)
Definition mount (now : Z) (stored : option text) : Result World :=
  match loadHistory (mkWorld initialApp [] 1%positive now stored) with
  | Ok w => Ok (saveHistory w)
  | Throws e => Throws e
  end.

(** ** The event loop *)

Inductive Event : Type :=
| Elapse (ms : Z)                         (* time passes *)
| ClickRequest (rnd : list Q)             (* onClick={requestSteamCode} *)
| ClickReset                              (* onClick={resetInterface} *)
| ClickHistory
| Fire (h : positive) (rnd : list Q)      (* the timer with handle h fires *)
| Reload.                                 (* the page is loaded again *)

Definition findTimer (h : positive) (w : World) : option Timer :=
  find (hasHandle h) (timers w).

Definition runCallback (cb : Callback) (rnd : list Q) (w : World) : World :=
  match cb with
  | ClearNotification => setNotification "" w
  | ProgressTick startTime => progressTick startTime w
  | TimeoutGuard => timeoutGuard w
  | LookupDelay searchTime =>
      lookupSettled (fst (Steam2FASimulator.simulateSearch_resume searchTime rnd)) w
  | AutoSuccess => setState SUCCESS w
  end.

(** After an interval's callback the timer, if it was not cleared
    meanwhile, is due again one period later. *)
Definition reschedule (h : positive) (period : Z) (w : World) : World :=
  mkWorld (app w)
    (map (fun t => if hasHandle h t
                   then mkTimer (handle t) (clock w + period) (every t) (callback t)
                   else t) (timers w))
    (nextHandle w) (clock w) (storage w).

Definition fire (h : positive) (rnd : list Q) (w : World) : option World :=
  match findTimer h w with
  | None => None
  | Some t =>
      if due t <=? clock w then
        match every t with
        | None => Some (runCallback (callback t) rnd (clearTimer (Some h) w))
        | Some period => Some (reschedule h period (runCallback (callback t) rnd w))
        end
      else None
  end.

(** One turn of the event loop; [None] when the event cannot happen in
    [w] (time running backwards, a timer that is not pending or not due) or
    when the page dies on an uncaught exception. The buttons' [disabled]
    and visibility conditions are not enforced: the handlers are what is
    modelled. React renders again after each turn; the save effect is run
    then (React skips it when [history] is still the same array, in which
    case the store already holds this text). *)
Definition step (e : Event) (w : World) : option World :=
  match e with
  | Elapse ms =>
      if 0 <=? ms
      then Some (mkWorld (app w) (timers w) (nextHandle w) (clock w + ms) (storage w))
      else None
  | ClickRequest rnd => Some (saveHistory (requestSteamCode rnd w))
  | ClickReset => Some (saveHistory (resetInterface w))
  | ClickHistory => Some (saveHistory (toggleHistory w))
  | Fire h rnd => option_map saveHistory (fire h rnd w)
  | Reload =>
      match mount (clock w) (storage w) with
      | Ok w' => Some w'
      | Throws _ => None
      end
  end.

Fixpoint run (es : list Event) (w : World) : option World :=
  match es with
  | [] => Some w
  | e :: es' =>
      match step e w with
      | Some w' => run es' w'
      | None => None
      end
  end.

(** The worlds the program can be in: a first load over an empty store,
    followed by any events. *)
Inductive reachable : World -> Prop :=
| reach_install (now : Z) (w : World) :
    mount now None = Ok w -> reachable w
| reach_step (e : Event) (w w' : World) :
    reachable w -> step e w = Some w' -> reachable w'.

(** The same over any stored text: the worlds the program can be in when
    its first load found [stored] in local storage. *)
Inductive reachableFrom (stored : option text) : World -> Prop :=
| from_install (now : Z) (w : World) :
    mount now stored = Ok w -> reachableFrom stored w
| from_step (e : Event) (w w' : World) :
    reachableFrom stored w -> step e w = Some w' -> reachableFrom stored w'.

(** *** Timers in due order *)

(** The timer with handle [h] is pending and no pending timer is due
    before it. *)
Definition earliest (h : positive) (w : World) : bool :=
  match findTimer h w with
  | Some t => forallb (fun t' => due t <=? due t') (timers w)
  | None => false
  end.

(** An event that an event loop which runs timers in the order they are
    due can take next. Clicks, pauses and reloads come at any time. *)
Definition inOrder (e : Event) (w : World) : bool :=
  match e with
  | Fire h _ => earliest h w
  | _ => true
  end.

Fixpoint runInOrder (es : list Event) (w : World) : option World :=
  match es with
  | [] => Some w
  | e :: es' =>
      if inOrder e w then
        match step e w with
        | Some w' => runInOrder es' w'
        | None => None
        end
      else None
  end.

(** The worlds the program can be in when timers run in due order. *)
Inductive reachableInOrder : World -> Prop :=
| order_install (now : Z) (w : World) :
    mount now None = Ok w -> reachableInOrder w
| order_step (e : Event) (w w' : World) :
    reachableInOrder w -> inOrder e w = true -> step e w = Some w' ->
    reachableInOrder w'.

(** ** What [App] renders *)

(** Each function below is an expression of the JSX that [App] returns,
    as a render in the world [w] evaluates it ([Date.now()] is the time of
    that render). The page shows the value until the next render. *)

(** [Math.ceil]. *)
Definition Math_ceil (q : Q) : Z := Qceiling q.

(** [getStatusColor]. *)
Definition getStatusColor (a : App) : string :=
  match state a with
  | SEARCHING => "text-steam-secondary"
  | FOUND => "text-steam-success"
  | ERROR => "text-steam-error"
  | _ => "text-steam-accent"
  end.

(** [getStatusText]. Each state is a case of the [switch]; its [default]
    is never reached. *)
Definition getStatusText (a : App) : string :=
  match state a with
  | IDLE => "Sistema online - Pronto para buscar"
  | SEARCHING => "Buscando código Steam em emails..."
  | FOUND => "Código encontrado e pronto para uso"
  | SUCCESS => "Operação concluída com sucesso"
  | ERROR => "Erro na busca - Tente novamente"
  end.

(** The predicate of the statistics card: [h => h.status === 'success']. *)
Definition isSuccess (h : CodeRequest) : bool :=
  match status h with
  | success => true
  | error => false
  end.

(** "Total de códigos": [history.filter(...).length]. *)
Definition totalCodes (a : App) : Z :=
  Z.of_nat (List.length (filter isSuccess (history a))).

(** "Taxa de sucesso", the number in front of the percent sign. *)
Definition successRate (a : App) : Z :=
  if Z.of_nat (List.length (history a)) >? 0 then
    Math_round
      (inject_Z (Z.of_nat (List.length (filter isSuccess (history a))))
       / inject_Z (Z.of_nat (List.length (history a))) * 100)
  else 0.

(** The first line of each row of "Histórico Recente":
    [history.slice(0, 5).map(request => ...)]. *)
Definition recentCodes (a : App) : list string :=
  map (fun request => if isSuccess request then code request else "-----")
    (firstn 5 (history a)).

(** The [disabled] attribute of the request button, as a render in [w]
    computes it. *)
Definition requestDisabled (w : World) : bool :=
  AppState_eqb (state (app w)) SEARCHING || negb (canRequestCode w).

(** What the request button reads after a render. *)
Inductive ButtonLabel : Type :=
| Buscando                          (* the spinner and "Buscando..." *)
| Aguarde (seconds : Z)             (* the clock and "Aguarde {seconds}s" *)
| BuscarCodigo.                     (* the envelope and "Buscar Código" *)

(** The label a render in [w] gives the request button. *)
Definition requestLabel (w : World) : ButtonLabel :=
  if AppState_eqb (state (app w)) SEARCHING then Buscando
  else if negb (canRequestCode w) then
    Aguarde (Math_ceil
               (inject_Z (60000 - (Date_now w - lastRequestTime (app w))) / 1000))
  else BuscarCodigo.

(** Whether the "Solicitar Novo Código" button, the one that resets, is
    rendered. *)
Definition resetShown (a : App) : bool :=
  AppState_eqb (state a) FOUND || AppState_eqb (state a) ERROR.

(** Whether the code card is rendered: [state === FOUND && currentCode]. *)
Definition codeShown (a : App) : bool :=
  AppState_eqb (state a) FOUND
  && negb (Nat.eqb (String.length (currentCode a)) 0).

(** * Scenarios *)

(** Concrete runs of the program, used as examples and as witnesses. *)

(** A plausible reading of [Date.now()] at page load. *)
Definition T0 : Z := 1700000000000.

(** The draw that makes [simulateSearch] sleep 3000 ms. *)
Definition draw3000 : list Q := [(1 # 6)%Q].

(** The draws that make a settled lookup succeed with the code AB3K9. *)
Definition drawsAB3K9 : list Q :=
  [0%Q; 0%Q; (1 # 36)%Q; (29 # 36)%Q; (10 # 36)%Q; (35 # 36)%Q].

(** The draw that makes a settled lookup fail. *)
Definition drawFail : list Q := [0.95%Q].

Definition orElse (o : option World) (d : World) : World :=
  match o with
  | Some w => w
  | None => d
  end.

(** The page right after a first load at [T0]. *)
Definition freshWorld : World := mkWorld initialApp [] 1%positive T0 None.

(** The component idle, its last issuance 120 s in the past. *)
Definition idleWorld : World :=
  mkWorld (mkApp IDLE "" 0 0 [] false "" (T0 - 120000) None None)
    [] 1%positive T0 None.

(** A request in [idleWorld]; the lookup's 3000 ms have passed. *)
Definition searchingWorld : World :=
  orElse (run [ClickRequest draw3000; Elapse 3000] idleWorld) idleWorld.

(** One second into a search that started at [T0]. *)
Definition busyWorld : World :=
  orElse (run [ClickRequest draw3000; Elapse 1000] freshWorld) freshWorld.

(** Three seconds into a search that started at [T0]: the lookup is due. *)
Definition lookupDueWorld : World :=
  orElse (run [ClickRequest draw3000; Elapse 3000] freshWorld) freshWorld.

(** A request at [T0] whose page is frozen after one second (the machine
    sleeps, the tab is suspended) and thawed a minute later. The timers
    then fire in the order they were due: first the ticker, then the
    lookup. These are the events up to the thaw. *)
Definition frozenRun : list Event :=
  [ClickRequest draw3000; Elapse 1000; Fire 1 []; Elapse 60000].

Definition thawedWorld : World := orElse (run frozenRun freshWorld) freshWorld.

(** The ticker has fired on the thawed page and timed the request out. *)
Definition timedOutWorld : World :=
  orElse (step (Fire 1 []) thawedWorld) freshWorld.

(** A search at [T0] whose lookup failed after 3 s, looked at again 61 s
    after the request. *)
Definition failedRun : list Event :=
  [ClickRequest draw3000; Elapse 3000; Fire 3 drawFail; Elapse 58000].

Definition cooledDownWorld : World :=
  orElse (run failedRun freshWorld) freshWorld.

(** A search at [T0] whose lookup resolved after 3 s, looked at 10 s
    after the request: the code is on display, its expiry is pending. *)
Definition foundRun : list Event :=
  [ClickRequest draw3000; Elapse 3000; Fire 3 drawsAB3K9; Elapse 7000].

Definition foundWorld : World := orElse (run foundRun freshWorld) freshWorld.

(** The draw that makes [simulateSearch] sleep 3031.25 ms. The draw
    11/64 is a double, and so is every number computed from it. *)
Definition draw3031 : list Q := [(11 # 64)%Q].

(** [n] turns of the ticker of the first request, each at its due time. *)
Definition onTimeTicks (n : nat) : list Event :=
  List.concat (repeat [Elapse 100; Fire 1%positive []] n).

(** A request at [T0] whose lookup is due 3031 ms later. The ticker runs
    on time thirty times, the last time after 3000 ms; then the page is
    frozen until 50 s after the request. On the thawed page the lookup is
    the timer that was due first (3031 ms; the ticker 3100 ms, the guard
    45000 ms). *)
Definition overdueRun : list Event :=
  (ClickRequest draw3031 :: onTimeTicks 30 ++ [Elapse 47000])%list.

Definition overdueWorld : World :=
  orElse (runInOrder overdueRun freshWorld) freshWorld.

(** The timers that are left on the thawed page, each run when it is due:
    the lookup, the expiry of its notification, the move to [SUCCESS]. *)
Definition lookupFirstRun : list Event :=
  [Fire 3 drawsAB3K9; Elapse 3000; Fire 4 []; Elapse 27000; Fire 5 []].

(** The thawed page of [frozenRun], continued in due order: the ticker
    times the first request out, and a click, 61 s after the first one,
    starts a second search. The timer that was due first is now the lookup
    of the first request. *)
Definition secondSearchWorld : World :=
  orElse (runInOrder (frozenRun ++ [Fire 1 []; ClickRequest draw3000]) freshWorld)
    freshWorld.

(** A search at [T0], every timer run when it is due: the code is found
    after 3031 ms and expires 30 s later. The move to [SUCCESS], 33 s after
    the request, is the last change of state, and the last render. *)
Definition successWorld : World :=
  orElse (runInOrder
            (ClickRequest draw3031 :: onTimeTicks 30 ++ Elapse 31 :: lookupFirstRun)
            freshWorld)
    freshWorld.

(** The lookup of that search has just resolved; the change of state
    makes React render. *)
Definition codeFoundWorld : World :=
  orElse (runInOrder
            (ClickRequest draw3031 :: onTimeTicks 30 ++ [Elapse 31; Fire 3 drawsAB3K9])
            freshWorld)
    freshWorld.

(** Entries to try the log on. *)
Definition entry (n : Z) : CodeRequest :=
  mkCodeRequest (toString n) "ERROR" n error 0.

Definition olderEntries : list CodeRequest := map entry [1; 2; 3].

Definition laterEntries : list CodeRequest :=
  map entry [12; 13; 14; 15; 16; 17; 18; 19; 20].

(** A stored history of twelve entries, as another program, an earlier
    version or the user can have left it under the key, and the page
    loaded over it. *)
Definition twelveEntries : list CodeRequest :=
  map entry [1; 2; 3; 4; 5; 6; 7; 8; 9; 10; 11; 12].

Definition overfullStore : option text :=
  Some (Wellformed (JArray twelveEntries)).

Definition overfullWorld : World :=
  match mount T0 overfullStore with
  | Ok w => w
  | Throws _ => freshWorld
  end.

(** * Statements *)

(** ** Vocabulary *)

(** The text of the refusal notification. *)
Definition refusal : string := "Aguarde 1 minuto antes de solicitar novamente".

(** Timers that drive the lifecycle, as opposed to the notification. *)
Definition lifecycleTimer (t : Timer) : bool :=
  match callback t with
  | ProgressTick _ | TimeoutGuard | AutoSuccess => true
  | ClearNotification | LookupDelay _ => false
  end.

(** A run of requests and pauses, nothing else. *)
Definition onlyRequests (es : list Event) : Prop :=
  Forall (fun e => match e with
                   | ClickRequest _ => True
                   | Elapse ms => 0 <= ms
                   | _ => False
                   end) es.

(** The time that passes in a run. *)
Definition elapsed (es : list Event) : Z :=
  fold_right (fun e total => match e with
                             | Elapse ms => ms + total
                             | _ => total
                             end) 0 es.

(** What a handler or callback may do to the history and the store: leave
    the history alone or put one entry in front of it, and leave the store
    to the save effect. *)
Definition logStep (w w' : World) : Prop :=
  storage w' = storage w /\
  (history (app w') = history (app w) \/
   exists newRequest,
     history (app w') = appendHistory newRequest (history (app w))).

(** The bound the log is kept under, in the component and in the store. *)
Definition bounded (w : World) : Prop :=
  (List.length (history (app w)) <= 10)%nat /\
  forall items, storage w = Some (Wellformed (JArray items)) ->
                (List.length items <= 10)%nat.

(** The store holds the text of the history, once there is a history. *)
Definition synced (w : World) : Prop :=
  storage w =
  match history (app w) with
  | [] => None
  | _ :: _ => Some (Wellformed (JArray (history (app w))))
  end.

(** The number of entries of a stored history. *)
Definition storedLength (stored : option text) : nat :=
  match stored with
  | Some (Wellformed (JArray items)) => List.length items
  | _ => 0%nat
  end.

(** What the load effect makes of a stored text, if it accepts it. *)
Definition storedItems (stored : option text) : option (list CodeRequest) :=
  match stored with
  | None | Some Empty => Some []
  | Some (Wellformed (JArray items)) => Some items
  | Some Malformed | Some (Wellformed JOther) => None
  end.

(** The store gives back the history: loading it now would yield the
    history the component holds. *)
Definition kept (w : World) : Prop :=
  storedItems (storage w) = Some (history (app w)).

(** A run of timer callbacks and pauses, nothing else. *)
Definition onlyTimers (es : list Event) : Prop :=
  Forall (fun e => match e with
                   | Fire _ _ | Elapse _ => True
                   | _ => False
                   end) es.

(** Appending the entries [es], oldest first. *)
Definition appendAll (es : list CodeRequest) (prev : list CodeRequest)
    : list CodeRequest :=
  fold_left (fun h e => appendHistory e h) es prev.

(** ** Statements of the specification that the code does not meet *)

(** C1 as the spec states it: once the ticker or the guard has put a
    searching request into [ERROR], the request's lookup settling
    afterwards changes neither the lifecycle state nor the history. *)
Definition late_completion_ignored : Prop :=
  forall (w w1 w2 : World) (hTimer hLookup : positive) (rnd : list Q)
         (timer lookup : Timer) (s : Q),
    reachable w ->
    state (app w) = SEARCHING ->
    findTimer hTimer w = Some timer ->
    callback timer = TimeoutGuard \/
      (exists startTime, callback timer = ProgressTick startTime) ->
    step (Fire hTimer []) w = Some w1 ->
    state (app w1) = ERROR ->
    findTimer hLookup w1 = Some lookup ->
    callback lookup = LookupDelay s ->
    step (Fire hLookup rnd) w1 = Some w2 ->
    state (app w2) = state (app w1) /\ history (app w2) = history (app w1).

(** C2 as the spec states it (read in the code's favour: the expiry of a
    notification and the lookup itself do not count as pending timers). *)
Definition reset_cancels_all : Prop :=
  forall w : World,
    reachable w ->
    let w' := resetInterface w in
    state (app w') = IDLE /\
    currentCode (app w') = "" /\
    progress (app w') = 0%Q /\
    timeRemaining (app w') = 0 /\
    (forall t, In t (timers w') -> lifecycleTimer t = false) /\
    lastRequestTime (app w') = lastRequestTime (app w) /\
    history (app w') = history (app w).

(** C3 as the spec states it: with nothing stored, or with a stored text
    that does not parse, the page comes up with an empty history. *)
Definition load_fails_open : Prop :=
  forall (now : Z) (stored : option text),
    stored = None \/ stored = Some Malformed ->
    exists w, mount now stored = Ok w /\ history (app w) = [].

(** C4 as the spec states it: at every point the program can reach,
    whatever its first load found in the store, the history holds at most
    10 entries. *)
Definition history_at_most_ten : Prop :=
  forall (stored : option text) (w : World),
    reachableFrom stored w -> (List.length (history (app w)) <= 10)%nat.

(** C6 as the spec states it: when 45 s have passed since the request and
    the lookup of the running search is still out, then, once the timers
    have all run (in due order, with nothing else happening), the component
    is in [ERROR] and the request has left one entry in front of the
    history: TIMEOUT, status error, 45000 ms. *)
Definition budget_timeout_logged : Prop :=
  forall (w w' : World) (hl : positive) (lookup : Timer) (s : Q)
         (es : list Event),
    reachableInOrder w ->
    state (app w) = SEARCHING ->
    45000 <= clock w - lastRequestTime (app w) ->
    findTimer hl w = Some lookup ->
    callback lookup = LookupDelay s ->
    onlyTimers es ->
    runInOrder es w = Some w' ->
    timers w' = [] ->
    state (app w') = ERROR /\
    exists i ts,
      history (app w') =
        mkCodeRequest i "TIMEOUT" ts error 45000 :: firstn 9 (history (app w)).

(** C8 as the spec states it: no event but the reset button takes the
    component out of [SUCCESS] or [ERROR]. *)
Definition settled_until_reset : Prop :=
  forall (e : Event) (w w' : World),
    reachable w ->
    state (app w) = SUCCESS \/ state (app w) = ERROR ->
    e <> ClickReset ->
    step e w = Some w' ->
    state (app w') = state (app w).

(** ** Vocabulary of the further properties *)

(** A handle that is null or was handed out before. *)
Definition handedOut (w : World) (r : option positive) : Prop :=
  match r with
  | Some h => (h < nextHandle w)%positive
  | None => True
  end.

(** The timer table and the refs only hold handles that were handed out,
    so the next handle is fresh; and a pending timer whose handle is in
    [intervalRef] is a ticker, one whose handle is in [timeoutRef] a
    guard. *)
Definition tidy (w : World) : Prop :=
  (forall t, In t (timers w) -> (handle t < nextHandle w)%positive) /\
  handedOut w (intervalRef (app w)) /\
  handedOut w (timeoutRef (app w)) /\
  (forall t, In t (timers w) -> intervalRef (app w) = Some (handle t) ->
             exists startTime, callback t = ProgressTick startTime) /\
  (forall t, In t (timers w) -> timeoutRef (app w) = Some (handle t) ->
             callback t = TimeoutGuard).

(** The characters of a string. *)
Definition charsOf (s : string) : list ascii := list_ascii_of_string s.

(** Draws as [Math.random()] makes them: in [0, 1). *)
Definition unitDraws (rnd : list Q) : Prop :=
  Forall (fun r => (0 <= r)%Q /\ (r < 1)%Q) rnd.

(** The code on display is the code of the newest entry of the history,
    and that entry is a success. *)
Definition codeLogged (a : App) : Prop :=
  state a = FOUND ->
  exists newest older,
    history a = newest :: older /\
    status newest = success /\
    code newest = currentCode a.

(** Draws that spell ERROR. Each is a double, and so is its product with
    36: 1/8 gives index 4 (E), 31/64 index 17 (R), 13/32 index 14 (O). *)
Definition drawsERROR : list Q :=
  [(1 # 8)%Q; (31 # 64)%Q; (31 # 64)%Q; (13 # 32)%Q; (31 # 64)%Q].

(** Time passing, as in [step]. *)
Definition later (ms : Z) (w : World) : World :=
  mkWorld (app w) (timers w) (nextHandle w) (clock w + ms) (storage w).

(** * Properties *)

(** Closed goals about the scenarios are settled by running the model. *)
Ltac by_running := vm_compute; reflexivity.

(** ** Framing facts *)

Lemma app_saveHistory (w : World) : app (saveHistory w) = app w.
Proof. unfold saveHistory. destruct (0 <? _); reflexivity. Qed.

Lemma timers_saveHistory (w : World) : timers (saveHistory w) = timers w.
Proof. unfold saveHistory. destruct (0 <? _); reflexivity. Qed.

Lemma clock_saveHistory (w : World) : clock (saveHistory w) = clock w.
Proof. unfold saveHistory. destruct (0 <? _); reflexivity. Qed.

Lemma app_clearTimer (r : option positive) (w : World) :
  app (clearTimer r w) = app w.
Proof. destruct r; reflexivity. Qed.

Lemma clock_clearTimer (r : option positive) (w : World) :
  clock (clearTimer r w) = clock w.
Proof. destruct r; reflexivity. Qed.

Lemma storage_clearTimer (r : option positive) (w : World) :
  storage (clearTimer r w) = storage w.
Proof. destruct r; reflexivity. Qed.

Lemma app_reschedule (h : positive) (p : Z) (w : World) :
  app (reschedule h p w) = app w.
Proof. reflexivity. Qed.

Create Rewrite HintDb frame.

#[local] Hint Rewrite app_saveHistory timers_saveHistory clock_saveHistory
  app_clearTimer clock_clearTimer storage_clearTimer app_reschedule : frame.

(** [resetInterface] laid out: four setters, then the two handles are
    cleared (a handle that is null clears nothing either way). *)
Lemma resetInterface_clears (w : World) :
  resetInterface w =
  clearTimer (timeoutRef (app w))
    (clearTimer (intervalRef (app w))
       (setTimeRemaining 0 (setProgress 0 (setCurrentCode "" (setState IDLE w))))).
Proof.
  destruct w as [[st cc pr tr hi sh no lr [i|] [t|]] tm nh ck sto]; reflexivity.
Qed.

(** What a settled lookup leaves in the component, whatever else is going
    on: the two outcome branches of [requestSteamCode]. *)
Lemma lookupSettled_Ok (result : SearchResult) (w : World) :
  app (lookupSettled (Ok result) w) =
  mkApp FOUND (result_code result) 100 (timeRemaining (app w))
    (appendHistory
       (mkCodeRequest (toString (clock w)) (result_code result) (clock w)
          success (result_searchTime result))
       (history (app w)))
    (showHistory (app w)) "Código encontrado com sucesso!"
    (lastRequestTime (app w)) (intervalRef (app w)) (timeoutRef (app w)).
Proof.
  unfold lookupSettled, clearInterval, clearTimeout. cbn.
  autorewrite with frame. reflexivity.
Qed.

Lemma lookupSettled_Throws (e : Exn) (w : World) :
  app (lookupSettled (Throws e) w) =
  mkApp ERROR (currentCode (app w)) (progress (app w)) (timeRemaining (app w))
    (appendHistory
       (mkCodeRequest (toString (clock w)) "ERROR" (clock w) error 0)
       (history (app w)))
    (showHistory (app w)) "Erro: Não foi possível encontrar o código"
    (lastRequestTime (app w)) (intervalRef (app w)) (timeoutRef (app w)).
Proof.
  unfold lookupSettled, clearInterval, clearTimeout. cbn.
  autorewrite with frame. reflexivity.
Qed.

(** Firing a pending, due lookup timer runs the rest of [requestSteamCode]
    on the world without that timer (or, were it periodic, with it). *)
Lemma fire_lookup (w : World) (h : positive) (t : Timer) (s : Q) (rnd : list Q) :
  findTimer h w = Some t ->
  callback t = LookupDelay s ->
  due t <= clock w ->
  exists w0 w1,
    step (Fire h rnd) w = Some w1 /\
    app w0 = app w /\ clock w0 = clock w /\
    app w1 = app (lookupSettled (fst (Steam2FASimulator.simulateSearch_resume s rnd)) w0).
Proof.
  intros Hfind Hcb Hdue. unfold step, fire. rewrite Hfind.
  apply Z.leb_le in Hdue. rewrite Hdue, Hcb.
  destruct (every t) as [period|]; cbn [runCallback option_map].
  - exists w. eexists. split; [reflexivity|].
    rewrite app_saveHistory, app_reschedule. auto.
  - exists (clearTimer (Some h) w). eexists. split; [reflexivity|].
    rewrite app_saveHistory. auto.
Qed.

(** ** The lookup settles in time *)

(** A lookup that resolves reports the rounded time it slept. *)
Lemma simulateSearch_resume_searchTime (s : Q) (rnd : list Q) (result : SearchResult) :
  fst (Steam2FASimulator.simulateSearch_resume s rnd) = Ok result ->
  result_searchTime result = Math_round s.
Proof.
  unfold Steam2FASimulator.simulateSearch_resume, bind.
  destruct (Math_random rnd) as [r rnd'].
  destruct (Qlt_bool r Steam2FASimulator.literal_0_95); [|discriminate].
  destruct (Steam2FASimulator.generateRandomCode rnd') as [c rest]. cbn.
  intros H. injection H as <-. reflexivity.
Qed.

(** C7: when the lookup resolves successfully, the component ends in
    [FOUND] with progress 100 and the resolved code as current code, and a
    success entry carrying the lookup's code and search time is put at the
    front of the history (which keeps at most nine of the older entries
    behind it). This holds for every world in which the lookup's timer is
    pending and due, in particular before the 45 s budget is over. *)
Theorem lookup_success_found
    (w : World) (h : positive) (t : Timer) (s : Q) (rnd : list Q)
    (result : SearchResult) :
  findTimer h w = Some t ->
  callback t = LookupDelay s ->
  due t <= clock w ->
  fst (Steam2FASimulator.simulateSearch_resume s rnd) = Ok result ->
  exists w',
    step (Fire h rnd) w = Some w' /\
    state (app w') = FOUND /\
    progress (app w') = 100%Q /\
    currentCode (app w') = result_code result /\
    result_searchTime result = Math_round s /\
    exists newRequest,
      history (app w') = newRequest :: firstn 9 (history (app w)) /\
      status newRequest = success /\
      code newRequest = result_code result /\
      searchTime newRequest = result_searchTime result.
Proof.
  intros Hfind Hcb Hdue Hres.
  destruct (fire_lookup w h t s rnd Hfind Hcb Hdue)
    as (w0 & w1 & Hstep & Happ & Hclock & Happ1).
  rewrite Hres, lookupSettled_Ok, Happ, Hclock in Happ1.
  exists w1. rewrite Happ1. cbn.
  repeat split; trivial.
  - exact (simulateSearch_resume_searchTime s rnd result Hres).
  - eexists. repeat split.
Qed.

(** The spec's example: idle with the last issuance 120 s ago, a request,
    and the lookup resolving with AB3K9 after 3000 ms. *)
Lemma lookup_success_found_witness :
  exists w',
    step (Fire 3 drawsAB3K9) searchingWorld = Some w' /\
    state (app w') = FOUND /\
    progress (app w') = 100%Q /\
    currentCode (app w') = "AB3K9" /\
    3000 = Math_round (18000 # 6) /\
    exists newRequest,
      history (app w') = newRequest :: firstn 9 (history (app searchingWorld)) /\
      status newRequest = success /\
      code newRequest = "AB3K9" /\
      searchTime newRequest = 3000.
Proof.
  apply (lookup_success_found searchingWorld 3
           (mkTimer 3 (T0 + 3000) None (LookupDelay (18000 # 6)))
           (18000 # 6) drawsAB3K9 (mkSearchResult "AB3K9" 3000)).
  - vm_compute. reflexivity.
  - reflexivity.
  - apply Z.leb_le. vm_compute. reflexivity.
  - vm_compute. reflexivity.
Defined.

(** The time [simulateSearch] sleeps lies in the 2 to 8 seconds the code
    comments promise, for a draw in [0, 1). *)
Lemma simulateSearch_searchTime_range (r : Q) (rnd : list Q) :
  (0 <= r)%Q -> (r < 1)%Q ->
  let s := fst (Steam2FASimulator.simulateSearch_searchTime (r :: rnd)) in
  (2000 <= s)%Q /\ (s < 8000)%Q.
Proof.
  intros H0 H1. cbn. split.
  - rewrite <- (Qplus_0_l 2000) at 1. apply Qplus_le_l.
    apply Qmult_le_0_compat; [exact H0|discriminate].
  - setoid_replace 8000%Q with (1 * 6000 + 2000)%Q by reflexivity.
    apply Qplus_lt_l. apply Qmult_lt_compat_r; [reflexivity|exact H1].
Qed.

Lemma Math_round_ge_2000 (s : Q) : (2000 <= s)%Q -> 2000 <= Math_round s.
Proof.
  intros H. unfold Math_round.
  change 2000 with (Qfloor (inject_Z 2000)) at 1.
  apply Qfloor_resp_le.
  apply Qle_trans with s; [exact H|].
  rewrite <- (Qplus_0_r s) at 1.
  apply Qplus_le_r. discriminate.
Qed.

(** C10: when the lookup fails (it threw, it did not time out), the
    component ends in [ERROR] and one entry is put at the front of the
    history whose code is the text ERROR, whose status is [error] and
    whose search time is 0, although the lookup slept for [s] >= 2000 ms. *)
Theorem lookup_failure_error
    (w : World) (h : positive) (t : Timer) (s : Q) (rnd : list Q) (e : Exn) :
  findTimer h w = Some t ->
  callback t = LookupDelay s ->
  due t <= clock w ->
  fst (Steam2FASimulator.simulateSearch_resume s rnd) = Throws e ->
  exists w',
    step (Fire h rnd) w = Some w' /\
    state (app w') = ERROR /\
    exists newRequest,
      history (app w') = newRequest :: firstn 9 (history (app w)) /\
      code newRequest = "ERROR" /\
      status newRequest = error /\
      searchTime newRequest = 0 /\
      ((2000 <= s)%Q -> searchTime newRequest < Math_round s).
Proof.
  intros Hfind Hcb Hdue Hres.
  destruct (fire_lookup w h t s rnd Hfind Hcb Hdue)
    as (w0 & w1 & Hstep & Happ & Hclock & Happ1).
  rewrite Hres, lookupSettled_Throws, Happ, Hclock in Happ1.
  exists w1. rewrite Happ1. cbn [state history appendHistory].
  split; [exact Hstep|]. split; [reflexivity|].
  eexists. split; [reflexivity|]. cbn [code status searchTime].
  split; [reflexivity|]. split; [reflexivity|]. split; [reflexivity|].
  intros Hs. apply Math_round_ge_2000 in Hs. lia.
Qed.

(** The request of the example above, its lookup failing after 3000 ms. *)
Lemma lookup_failure_error_witness :
  exists w',
    step (Fire 3 drawFail) searchingWorld = Some w' /\
    state (app w') = ERROR /\
    exists newRequest,
      history (app w') = newRequest :: firstn 9 (history (app searchingWorld)) /\
      code newRequest = "ERROR" /\
      status newRequest = error /\
      searchTime newRequest = 0 /\
      ((2000 <= 18000 # 6)%Q -> searchTime newRequest < Math_round (18000 # 6)).
Proof.
  apply (lookup_failure_error searchingWorld 3
           (mkTimer 3 (T0 + 3000) None (LookupDelay (18000 # 6)))
           (18000 # 6) drawFail (LookupError "Código não encontrado")).
  - vm_compute. reflexivity.
  - reflexivity.
  - apply Z.leb_le. vm_compute. reflexivity.
  - vm_compute. reflexivity.
Defined.

(** ** A lookup that settles after the timeout *)

Lemma reachable_run (es : list Event) (w w' : World) :
  reachable w -> run es w = Some w' -> reachable w'.
Proof.
  revert w. induction es as [|e es IH]; intros w Hw Hrun; cbn in Hrun.
  - injection Hrun as <-. exact Hw.
  - destruct (step e w) as [w1|] eqn:Hstep; [|discriminate].
    apply (IH w1); [|exact Hrun]. exact (reach_step e w w1 Hw Hstep).
Qed.

Lemma reachable_freshWorld : reachable freshWorld.
Proof. apply (reach_install T0). reflexivity. Qed.

Lemma reachable_thawedWorld : reachable thawedWorld.
Proof.
  apply (reachable_run frozenRun freshWorld).
  - exact reachable_freshWorld.
  - by_running.
Qed.

(** C1, counterexample: on the thawed page the ticker times the request
    out (state [ERROR], one TIMEOUT entry); the lookup then resolves and
    the state becomes [FOUND], with a second entry in the history. *)
Lemma late_completion_counterexample : ~ late_completion_ignored.
Proof.
  intros H.
  destruct (H thawedWorld timedOutWorld
              (orElse (step (Fire 3 drawsAB3K9) timedOutWorld) freshWorld)
              1%positive 3%positive drawsAB3K9
              (mkTimer 1 (T0 + 1100) (Some 100) (ProgressTick T0))
              (mkTimer 3 (T0 + 3000) None (LookupDelay (18000 # 6)))
              (18000 # 6)%Q) as [Hstate _].
  - exact reachable_thawedWorld.
  - by_running.
  - by_running.
  - right. exists T0. reflexivity.
  - by_running.
  - by_running.
  - by_running.
  - reflexivity.
  - by_running.
  - vm_compute in Hstate. discriminate Hstate.
Qed.

(** The history of that run: the success entry in front of the TIMEOUT
    entry of the same request. *)
Example late_completion_two_entries :
  option_map (fun w => (state (app w), map code (history (app w))))
    (step (Fire 3 drawsAB3K9) timedOutWorld)
  = Some (FOUND, ["AB3K9"; "TIMEOUT"]).
Proof. by_running. Qed.

(** C1, as amended: a lookup that settles while the component is in
    [ERROR] (after a timeout, say) is not ignored. If it resolved, the
    state becomes [FOUND], its code becomes the current code, progress is
    set to 100 and a success entry is put at the front of the history; if
    it failed, the state stays [ERROR] and an ERROR entry is put at the
    front of the history. *)
Theorem late_completion_applied
    (w : World) (h : positive) (t : Timer) (s : Q) (rnd : list Q) :
  state (app w) = ERROR ->
  findTimer h w = Some t ->
  callback t = LookupDelay s ->
  due t <= clock w ->
  exists w',
    step (Fire h rnd) w = Some w' /\
    match fst (Steam2FASimulator.simulateSearch_resume s rnd) with
    | Ok result =>
        state (app w') = FOUND /\
        currentCode (app w') = result_code result /\
        progress (app w') = 100%Q /\
        history (app w') =
          mkCodeRequest (toString (clock w)) (result_code result) (clock w)
            success (result_searchTime result)
          :: firstn 9 (history (app w))
    | Throws _ =>
        state (app w') = ERROR /\
        history (app w') =
          mkCodeRequest (toString (clock w)) "ERROR" (clock w) error 0
          :: firstn 9 (history (app w))
    end.
Proof.
  intros _ Hfind Hcb Hdue.
  destruct (fire_lookup w h t s rnd Hfind Hcb Hdue)
    as (w0 & w1 & Hstep & Happ & Hclock & Happ1).
  exists w1. split; [exact Hstep|].
  destruct (fst (Steam2FASimulator.simulateSearch_resume s rnd)) as [result|e].
  - rewrite lookupSettled_Ok, Happ, Hclock in Happ1. rewrite Happ1.
    repeat split.
  - rewrite lookupSettled_Throws, Happ, Hclock in Happ1. rewrite Happ1.
    repeat split.
Qed.

(** The timed-out request of the counterexample, its lookup resolving. *)
Lemma late_completion_applied_witness :
  exists w',
    step (Fire 3 drawsAB3K9) timedOutWorld = Some w' /\
    match fst (Steam2FASimulator.simulateSearch_resume (18000 # 6) drawsAB3K9) with
    | Ok result =>
        state (app w') = FOUND /\
        currentCode (app w') = result_code result /\
        progress (app w') = 100%Q /\
        history (app w') =
          mkCodeRequest (toString (clock timedOutWorld)) (result_code result)
            (clock timedOutWorld) success (result_searchTime result)
          :: firstn 9 (history (app timedOutWorld))
    | Throws _ =>
        state (app w') = ERROR /\
        history (app w') =
          mkCodeRequest (toString (clock timedOutWorld)) "ERROR"
            (clock timedOutWorld) error 0
          :: firstn 9 (history (app timedOutWorld))
    end.
Proof.
  apply (late_completion_applied timedOutWorld 3
           (mkTimer 3 (T0 + 3000) None (LookupDelay (18000 # 6)))).
  - vm_compute. reflexivity.
  - vm_compute. reflexivity.
  - reflexivity.
  - apply Z.leb_le. vm_compute. reflexivity.
Defined.

(** ** Requests that are refused *)

(** Inside the cooldown [requestSteamCode] is its first branch. *)
Lemma requestSteamCode_cooldown (w : World) (rnd : list Q) :
  clock w - lastRequestTime (app w) < 60000 ->
  requestSteamCode rnd w = showNotification refusal w.
Proof.
  intros Hcool. unfold requestSteamCode, canRequestCode, Date_now.
  replace (clock w - lastRequestTime (app w) >? 60000) with false
    by (symmetry; rewrite Z.gtb_ltb; apply Z.ltb_ge; lia).
  reflexivity.
Qed.

(** C5: a request made while fewer than 60 seconds have passed since the
    last issuance leaves the lifecycle state, the transient fields, the
    issuance time and the history as they were and starts no lookup: all it
    does is show the refusal notification, whose expiry is the one timer
    it adds. The world [w] is arbitrary, so this holds at every call of
    every sequence of calls. *)
Theorem request_within_cooldown_refused (w : World) (rnd : list Q) :
  clock w - lastRequestTime (app w) < 60000 ->
  let w' := requestSteamCode rnd w in
  state (app w') = state (app w) /\
  currentCode (app w') = currentCode (app w) /\
  progress (app w') = progress (app w) /\
  timeRemaining (app w') = timeRemaining (app w) /\
  lastRequestTime (app w') = lastRequestTime (app w) /\
  history (app w') = history (app w) /\
  intervalRef (app w') = intervalRef (app w) /\
  timeoutRef (app w') = timeoutRef (app w) /\
  notification (app w') = refusal /\
  timers w' =
    (timers w ++ [mkTimer (nextHandle w) (clock w + 3000) None ClearNotification])%list.
Proof.
  intros Hcool w'. subst w'.
  rewrite (requestSteamCode_cooldown w rnd Hcool).
  unfold showNotification. cbn. repeat split.
Qed.

Lemma reachable_busyWorld : reachable busyWorld.
Proof.
  apply (reachable_run [ClickRequest draw3000; Elapse 1000] freshWorld).
  - exact reachable_freshWorld.
  - by_running.
Qed.

Lemma request_within_cooldown_refused_witness :
  let w' := requestSteamCode [] busyWorld in
  state (app w') = state (app busyWorld) /\
  currentCode (app w') = currentCode (app busyWorld) /\
  progress (app w') = progress (app busyWorld) /\
  timeRemaining (app w') = timeRemaining (app busyWorld) /\
  lastRequestTime (app w') = lastRequestTime (app busyWorld) /\
  history (app w') = history (app busyWorld) /\
  intervalRef (app w') = intervalRef (app busyWorld) /\
  timeoutRef (app w') = timeoutRef (app busyWorld) /\
  notification (app w') = refusal /\
  timers w' =
    (timers busyWorld ++
     [mkTimer (nextHandle busyWorld) (clock busyWorld + 3000) None
        ClearNotification])%list.
Proof.
  apply (request_within_cooldown_refused busyWorld []).
  vm_compute. reflexivity.
Defined.

Lemma elapsed_nonneg (es : list Event) : onlyRequests es -> 0 <= elapsed es.
Proof.
  induction 1 as [|e es He _ IH]; [cbn; lia|].
  unfold elapsed in *. cbn [fold_right].
  destruct e; try contradiction; lia.
Qed.

(** The same over a whole run of requests and pauses that ends inside the
    cooldown: every request of the run is refused, and all the run leaves
    behind are notification expiries. *)
Corollary requests_within_cooldown_refused (es : list Event) (w : World) :
  onlyRequests es ->
  clock w + elapsed es - lastRequestTime (app w) < 60000 ->
  exists w',
    run es w = Some w' /\
    state (app w') = state (app w) /\
    currentCode (app w') = currentCode (app w) /\
    progress (app w') = progress (app w) /\
    timeRemaining (app w') = timeRemaining (app w) /\
    lastRequestTime (app w') = lastRequestTime (app w) /\
    history (app w') = history (app w) /\
    forall t, In t (timers w') ->
              In t (timers w) \/ callback t = ClearNotification.
Proof.
  intros Hes. revert w.
  induction Hes as [|e es He Hes IH]; intros w Hcool.
  - exists w. repeat split. intros t Ht. left. exact Ht.
  - pose proof (elapsed_nonneg es Hes) as Hpos.
    destruct e as [ms|rnd| | | |]; try contradiction;
      cbn [elapsed fold_right] in Hcool; fold (elapsed es) in Hcool.
    + cbn [run step]. replace (0 <=? ms) with true by (symmetry; apply Z.leb_le; exact He).
      destruct (IH (mkWorld (app w) (timers w) (nextHandle w) (clock w + ms) (storage w)))
        as (w' & Hrun & Hrest); [cbn; lia|].
      exists w'. split; [exact Hrun|exact Hrest].
    + cbn [run step].
      assert (Hreq : requestSteamCode rnd w = showNotification refusal w)
        by (apply requestSteamCode_cooldown; lia).
      destruct (IH (saveHistory (requestSteamCode rnd w)))
        as (w' & Hrun & G1 & G2 & G3 & G4 & G5 & G6 & G7).
      { rewrite clock_saveHistory, app_saveHistory, Hreq. exact Hcool. }
      rewrite app_saveHistory, Hreq in G1, G2, G3, G4, G5, G6.
      exists w'. split; [exact Hrun|].
      do 6 (split; [assumption|]).
      intros t Ht. destruct (G7 t Ht) as [Hin|Hcb]; [|right; exact Hcb].
      rewrite timers_saveHistory, Hreq in Hin. cbn in Hin.
      apply in_app_or in Hin. destruct Hin as [Hin|[<-|[]]].
      * left. exact Hin.
      * right. reflexivity.
Qed.

(** C9: a request made while searching is a no-op: it leaves the
    lifecycle state, the transient fields, the issuance time, the history
    and both timer handles as they were and starts no lookup, ticker or
    guard. When the cooldown is over it changes nothing at all; when it is
    not, the refusal is notified: the notification is set and its expiry
    scheduled, and the timer table is otherwise as it was. *)
Theorem request_while_searching_refused (w : World) (rnd : list Q) :
  state (app w) = SEARCHING ->
  let w' := requestSteamCode rnd w in
  state (app w') = SEARCHING /\
  currentCode (app w') = currentCode (app w) /\
  progress (app w') = progress (app w) /\
  timeRemaining (app w') = timeRemaining (app w) /\
  lastRequestTime (app w') = lastRequestTime (app w) /\
  history (app w') = history (app w) /\
  intervalRef (app w') = intervalRef (app w) /\
  timeoutRef (app w') = timeoutRef (app w) /\
  if canRequestCode w then w' = w
  else notification (app w') = refusal /\
       timers w' =
         (timers w ++
          [mkTimer (nextHandle w) (clock w + 3000) None ClearNotification])%list.
Proof.
  intros Hs w'. subst w'. unfold requestSteamCode.
  destruct (canRequestCode w); cbn [negb].
  - rewrite Hs. cbn. rewrite Hs. repeat split.
  - cbn. rewrite Hs. repeat split.
Qed.

Lemma request_while_searching_refused_witness :
  let w' := requestSteamCode [] busyWorld in
  state (app w') = SEARCHING /\
  currentCode (app w') = currentCode (app busyWorld) /\
  progress (app w') = progress (app busyWorld) /\
  timeRemaining (app w') = timeRemaining (app busyWorld) /\
  lastRequestTime (app w') = lastRequestTime (app busyWorld) /\
  history (app w') = history (app busyWorld) /\
  intervalRef (app w') = intervalRef (app busyWorld) /\
  timeoutRef (app w') = timeoutRef (app busyWorld) /\
  if canRequestCode busyWorld then w' = busyWorld
  else notification (app w') = refusal /\
       timers w' =
         (timers busyWorld ++
          [mkTimer (nextHandle busyWorld) (clock busyWorld + 3000) None
             ClearNotification])%list.
Proof.
  apply (request_while_searching_refused busyWorld []).
  vm_compute. reflexivity.
Defined.

(** ** Leaving [SUCCESS] and [ERROR] *)

Lemma reachable_cooledDownWorld : reachable cooledDownWorld.
Proof.
  apply (reachable_run failedRun freshWorld).
  - exact reachable_freshWorld.
  - by_running.
Qed.

(** C8, counterexample: 61 s after a request that failed, the component
    is in [ERROR] and a click on the request button starts a new search. *)
Lemma settled_until_reset_counterexample : ~ settled_until_reset.
Proof.
  intros H.
  assert (Hstate : state (app (orElse (step (ClickRequest draw3000) cooledDownWorld)
                                 freshWorld))
                   = state (app cooledDownWorld)).
  { apply (H (ClickRequest draw3000) cooledDownWorld).
    - exact reachable_cooledDownWorld.
    - right. by_running.
    - discriminate.
    - by_running. }
  vm_compute in Hstate. discriminate Hstate.
Qed.

(** C8, as amended: in [SUCCESS] and [ERROR] the reset handler moves to
    [IDLE] and the history button leaves the state alone; a request leaves
    the state alone only while the cooldown is running (no more than 60 s
    since the last issuance) and otherwise moves straight to
    [SEARCHING]. *)
Theorem request_from_settled_state (w : World) (rnd : list Q) :
  state (app w) = SUCCESS \/ state (app w) = ERROR ->
  state (app (requestSteamCode rnd w)) =
    (if canRequestCode w then SEARCHING else state (app w)) /\
  state (app (resetInterface w)) = IDLE /\
  state (app (toggleHistory w)) = state (app w).
Proof.
  intros Hs. split; [|split].
  - unfold requestSteamCode.
    destruct (canRequestCode w); cbn [negb]; [|reflexivity].
    destruct Hs as [Hs|Hs]; rewrite Hs; reflexivity.
  - rewrite resetInterface_clears, !app_clearTimer. reflexivity.
  - reflexivity.
Qed.

Lemma request_from_settled_state_witness :
  state (app (requestSteamCode draw3000 cooledDownWorld)) =
    (if canRequestCode cooledDownWorld then SEARCHING
     else state (app cooledDownWorld)) /\
  state (app (resetInterface cooledDownWorld)) = IDLE /\
  state (app (toggleHistory cooledDownWorld)) = state (app cooledDownWorld).
Proof.
  apply (request_from_settled_state cooledDownWorld draw3000).
  right. vm_compute. reflexivity.
Defined.

(** ** Reset *)

Lemma reachable_foundWorld : reachable foundWorld.
Proof.
  apply (reachable_run foundRun freshWorld).
  - exact reachable_freshWorld.
  - by_running.
Qed.

(** C2, counterexample: a reset while the code is on display leaves the
    timer that moves the component to [SUCCESS] in the table. *)
Lemma reset_cancels_all_counterexample : ~ reset_cancels_all.
Proof.
  intros H.
  destruct (H foundWorld reachable_foundWorld) as (_ & _ & _ & _ & Hnone & _).
  specialize (Hnone (mkTimer 5 (T0 + 33000) None AutoSuccess)).
  cbn in Hnone. assert (Hf : true = false); [|discriminate Hf].
  apply Hnone. vm_compute. right. left. reflexivity.
Qed.

(** What that timer then does: 23 s after the reset the idle component
    shows [SUCCESS]. *)
Example reset_then_expiry :
  option_map (fun w => state (app w))
    (run [ClickReset; Elapse 23000; Fire 5 []] foundWorld) = Some SUCCESS.
Proof. by_running. Qed.

Lemma findTimer_clearTimer (h : positive) (w : World) :
  findTimer h (clearTimer (Some h) w) = None.
Proof.
  unfold findTimer. cbn.
  destruct (find _ _) as [t|] eqn:Hfind; [|reflexivity].
  apply find_some in Hfind. destruct Hfind as [Hin Hh].
  apply filter_In in Hin. destruct Hin as [_ Hn].
  rewrite Hh in Hn. discriminate Hn.
Qed.

Lemma findTimer_clearTimer_None (h : positive) (r : option positive) (w : World) :
  findTimer h w = None -> findTimer h (clearTimer r w) = None.
Proof.
  unfold findTimer. intros Hnone. destruct r as [h'|]; [|exact Hnone]. cbn.
  destruct (find _ (filter _ _)) as [t|] eqn:Hfind; [|reflexivity].
  apply find_some in Hfind. destruct Hfind as [Hin Hh].
  apply filter_In in Hin. destruct Hin as [Hin _].
  rewrite (find_none _ _ Hnone t Hin) in Hh. discriminate Hh.
Qed.

Lemma In_clearTimer (t : Timer) (r : option positive) (w : World) :
  In t (timers (clearTimer r w)) <->
  In t (timers w) /\ r <> Some (handle t).
Proof.
  destruct r as [h|]; cbn.
  - rewrite filter_In. unfold hasHandle.
    destruct (Pos.eqb_spec (handle t) h) as [->|Hne]; cbn.
    + split; [intros [_ Hf]; discriminate Hf|intros [_ Hf]; now elim Hf].
    + split; intros [Hin _]; (split; [exact Hin|]); try reflexivity.
      intros Heq. injection Heq as ->. now elim Hne.
  - split; [intros Hin; split; [exact Hin|discriminate]|intros [Hin _]; exact Hin].
Qed.

(** Which timers a reset leaves in the table: all but the two whose
    handles are in the refs. *)
Lemma resetInterface_timers (w : World) (t : Timer) :
  In t (timers (resetInterface w)) <->
  In t (timers w) /\
  intervalRef (app w) <> Some (handle t) /\
  timeoutRef (app w) <> Some (handle t).
Proof.
  rewrite resetInterface_clears, !In_clearTimer. cbn. tauto.
Qed.

(** C2, as amended: from every world the reset handler returns to
    [IDLE], clears the current code, the progress and the remaining time,
    cancels the two timers the component holds a handle to (the ticker and
    the 45 s guard of the latest request), starts no timer and leaves the
    issuance time and the history as they were. *)
Theorem reset_returns_to_idle (w : World) :
  let w' := resetInterface w in
  state (app w') = IDLE /\
  currentCode (app w') = "" /\
  progress (app w') = 0%Q /\
  timeRemaining (app w') = 0 /\
  lastRequestTime (app w') = lastRequestTime (app w) /\
  history (app w') = history (app w) /\
  (forall h, intervalRef (app w) = Some h \/ timeoutRef (app w) = Some h ->
             findTimer h w' = None) /\
  (forall t, In t (timers w') -> In t (timers w)).
Proof.
  cbv zeta.
  assert (Happ : app (resetInterface w)
                 = app (setTimeRemaining 0
                          (setProgress 0 (setCurrentCode "" (setState IDLE w)))))
    by (rewrite resetInterface_clears; autorewrite with frame; reflexivity).
  rewrite Happ. cbn.
  do 6 (split; [reflexivity|]). split.
  - intros h [Hi|Ht]; rewrite resetInterface_clears.
    + apply findTimer_clearTimer_None. rewrite Hi. apply findTimer_clearTimer.
    + rewrite Ht. apply findTimer_clearTimer.
  - intros t Ht. apply resetInterface_timers in Ht. tauto.
Qed.

(** ** Loading the stored history *)

(** C3, counterexample: over a stored text that does not parse the page
    does not come up: [JSON.parse] throws inside the effect and nothing
    catches it. *)
Lemma load_fails_open_counterexample : ~ load_fails_open.
Proof.
  intros H.
  destruct (H T0 (Some Malformed)) as (w & Hmount & _).
  - right. reflexivity.
  - discriminate Hmount.
Qed.

(** C3, as amended: with nothing stored, or with the empty text stored,
    the page comes up idle with an empty history and the store untouched;
    over a stored text that does not parse, the [SyntaxError] of
    [JSON.parse] leaves the load effect uncaught. *)
Theorem mount_missing_or_malformed (now : Z) :
  mount now None = Ok (mkWorld initialApp [] 1%positive now None) /\
  mount now (Some Empty) = Ok (mkWorld initialApp [] 1%positive now (Some Empty)) /\
  history initialApp = [] /\
  mount now (Some Malformed) = Throws SyntaxError.
Proof. repeat split. Qed.

(** A stored text that parses, but not to an array, is no better. *)
Example mount_not_an_array (now : Z) :
  mount now (Some (Wellformed JOther)) = Throws TypeError.
Proof. reflexivity. Qed.

(** ** The budget runs out *)

(** The ticker's way out: a tick that sees 45 s or more on the clock puts
    the TIMEOUT entry, with the full budget as search time, at the front
    of the history and moves to [ERROR]. *)
Lemma progressTick_timeout (startTime : Z) (w : World) :
  45000 <= clock w - startTime ->
  state (app (progressTick startTime w)) = ERROR /\
  history (app (progressTick startTime w)) =
    mkCodeRequest (toString (clock w)) "TIMEOUT" (clock w) error 45000
    :: firstn 9 (history (app w)).
Proof.
  intros Hlate. unfold progressTick, Date_now. cbv zeta.
  assert (Hq : 45 <= (clock w - startTime) / 1000)
    by (apply Z.div_le_lower_bound; lia).
  replace (Z.max (45 - (clock w - startTime) / 1000) 0 <=? 0) with true
    by (symmetry; apply Z.leb_le; lia).
  unfold clearInterval. cbn. rewrite !clock_clearTimer, !app_clearTimer.
  split; reflexivity.
Qed.

(** Before that, a tick only updates progress and countdown. *)
Lemma progressTick_running (startTime : Z) (w : World) :
  clock w - startTime < 45000 ->
  state (app (progressTick startTime w)) = state (app w) /\
  history (app (progressTick startTime w)) = history (app w) /\
  timers (progressTick startTime w) = timers w.
Proof.
  intros Hearly. unfold progressTick, Date_now. cbv zeta.
  assert (Hq : (clock w - startTime) / 1000 < 45)
    by (apply Z.div_lt_upper_bound; lia).
  replace (Z.max (45 - (clock w - startTime) / 1000) 0 <=? 0) with false
    by (symmetry; apply Z.leb_gt; lia).
  repeat split.
Qed.

(** The guard's way out: [ERROR], the ticker cleared, the history as it
    was. *)
Lemma timeoutGuard_no_entry (w : World) :
  state (app (timeoutGuard w)) = ERROR /\
  history (app (timeoutGuard w)) = history (app w) /\
  forall h, intervalRef (app w) = Some h -> findTimer h (timeoutGuard w) = None.
Proof.
  unfold timeoutGuard, clearInterval. cbn. rewrite !app_clearTimer.
  repeat split. intros h Hh. rewrite Hh.
  exact (findTimer_clearTimer h w).
Qed.

(** ** The history log *)

Lemma logStep_refl (w : World) : logStep w w.
Proof. split; [reflexivity|left; reflexivity]. Qed.

Lemma logStep_same (w w' : World) :
  storage w' = storage w -> history (app w') = history (app w) -> logStep w w'.
Proof. intros Hs Hh. split; [exact Hs|left; exact Hh]. Qed.

Lemma logStep_requestSteamCode (rnd : list Q) (w : World) :
  logStep w (requestSteamCode rnd w).
Proof.
  unfold requestSteamCode.
  destruct (canRequestCode w); cbn [negb].
  - destruct (AppState_eqb (state (app w)) SEARCHING).
    + apply logStep_refl.
    + apply logStep_same; reflexivity.
  - apply logStep_same; reflexivity.
Qed.

Lemma logStep_resetInterface (w : World) : logStep w (resetInterface w).
Proof.
  rewrite resetInterface_clears.
  apply logStep_same; rewrite ?storage_clearTimer, ?app_clearTimer; reflexivity.
Qed.

Lemma logStep_progressTick (startTime : Z) (w : World) :
  logStep w (progressTick startTime w).
Proof.
  unfold progressTick. cbv zeta.
  generalize (Z.max (45 - (Date_now w - startTime) / 1000) 0).
  generalize (Qmin (inject_Z (Date_now w - startTime) / 45000 * 100) 100).
  intros p remaining.
  destruct (remaining <=? 0).
  - split.
    + unfold clearInterval. cbn. rewrite storage_clearTimer. reflexivity.
    + right. eexists. unfold clearInterval. cbn.
      rewrite !app_clearTimer. cbn. reflexivity.
  - apply logStep_same; reflexivity.
Qed.

Lemma logStep_lookupSettled (outcome : Result SearchResult) (w : World) :
  logStep w (lookupSettled outcome w).
Proof.
  split.
  - destruct outcome; unfold lookupSettled, clearInterval, clearTimeout; cbn;
      rewrite !storage_clearTimer; reflexivity.
  - right. destruct outcome as [result|e].
    + rewrite lookupSettled_Ok. eexists. reflexivity.
    + rewrite lookupSettled_Throws. eexists. reflexivity.
Qed.

Lemma logStep_runCallback (cb : Callback) (rnd : list Q) (w : World) :
  logStep w (runCallback cb rnd w).
Proof.
  destruct cb; cbn [runCallback].
  - apply logStep_same; reflexivity.
  - apply logStep_progressTick.
  - apply logStep_same; unfold timeoutGuard, clearInterval; cbn;
      rewrite ?storage_clearTimer, ?app_clearTimer; reflexivity.
  - apply logStep_lookupSettled.
  - apply logStep_same; reflexivity.
Qed.

Lemma logStep_fire (h : positive) (rnd : list Q) (w w' : World) :
  fire h rnd w = Some w' -> logStep w w'.
Proof.
  unfold fire. destruct (findTimer h w) as [t|]; [|discriminate].
  destruct (due t <=? clock w); [|discriminate].
  destruct (every t) as [period|]; intros Heq; injection Heq as <-.
  - exact (logStep_runCallback (callback t) rnd w).
  - exact (logStep_runCallback (callback t) rnd (clearTimer (Some h) w)).
Qed.

Lemma appendHistory_length (newRequest : CodeRequest) (prev : list CodeRequest) :
  (List.length (appendHistory newRequest prev) <= 10)%nat.
Proof.
  unfold appendHistory. cbn [List.length].
  pose proof (firstn_le_length 9 prev). lia.
Qed.

Lemma bounded_saveHistory (w w' : World) :
  bounded w -> logStep w w' -> bounded (saveHistory w').
Proof.
  intros [Hh Hs] [Hsto Hlog].
  assert (Hh' : (List.length (history (app w')) <= 10)%nat).
  { destruct Hlog as [->|[e ->]]; [exact Hh|apply appendHistory_length]. }
  split.
  - rewrite app_saveHistory. exact Hh'.
  - intros items. unfold saveHistory.
    destruct (0 <? Z.of_nat (List.length (history (app w')))); cbn.
    + intros Heq. injection Heq as <-. exact Hh'.
    + rewrite Hsto. apply Hs.
Qed.

Lemma bounded_mount (now : Z) (stored : option text) (w : World) :
  (forall items, stored = Some (Wellformed (JArray items)) ->
                 (List.length items <= 10)%nat) ->
  mount now stored = Ok w -> bounded w.
Proof.
  intros Hstored. unfold mount, loadHistory. cbn [storage].
  destruct stored as [[| |[items|]]|]; try discriminate;
    intros Heq; injection Heq as <-.
  - split; [cbn; lia|intros items; discriminate].
  - assert (Hlen : (List.length items <= 10)%nat) by (apply Hstored; reflexivity).
    split.
    + rewrite app_saveHistory. cbn. rewrite length_map. exact Hlen.
    + intros items'. unfold saveHistory. cbn.
      destruct (0 <? Z.of_nat (List.length (map _ items))); cbn;
        intros Heq; injection Heq as <-; [rewrite length_map|]; exact Hlen.
  - split; [cbn; lia|intros items; discriminate].
Qed.

Lemma bounded_step (e : Event) (w w' : World) :
  bounded w -> step e w = Some w' -> bounded w'.
Proof.
  intros Hb. destruct e as [ms|rnd| | |h rnd|]; cbn [step].
  - destruct (0 <=? ms); [|discriminate].
    intros Heq. injection Heq as <-. exact Hb.
  - intros Heq. injection Heq as <-.
    exact (bounded_saveHistory w _ Hb (logStep_requestSteamCode rnd w)).
  - intros Heq. injection Heq as <-.
    exact (bounded_saveHistory w _ Hb (logStep_resetInterface w)).
  - intros Heq. injection Heq as <-.
    apply (bounded_saveHistory w); [exact Hb|apply logStep_same; reflexivity].
  - destruct (fire h rnd w) as [w1|] eqn:Hfire; [|discriminate].
    cbn. intros Heq. injection Heq as <-.
    exact (bounded_saveHistory w w1 Hb (logStep_fire h rnd w w1 Hfire)).
  - destruct (mount (clock w) (storage w)) as [w1|ex] eqn:Hmount; [|discriminate].
    intros Heq. injection Heq as <-.
    apply (bounded_mount (clock w) (storage w)); [|exact Hmount].
    exact (proj2 Hb).
Qed.

Lemma reachable_bounded (w : World) : reachable w -> bounded w.
Proof.
  induction 1 as [now w Hmount|e w w' _ IH Hstep].
  - apply (bounded_mount now None); [discriminate|exact Hmount].
  - exact (bounded_step e w w' IH Hstep).
Qed.

(** *** The store follows the history *)

Lemma revive_id (items : list CodeRequest) :
  map (fun item => mkCodeRequest (id item) (code item) (timestamp item)
                     (status item) (searchTime item)) items = items.
Proof.
  induction items as [|[i c t st se] items IH]; cbn; [|rewrite IH]; reflexivity.
Qed.

Lemma synced_saveHistory (w w' : World) :
  synced w -> logStep w w' -> synced (saveHistory w').
Proof.
  unfold synced. intros Hsync [Hsto Hlog].
  rewrite app_saveHistory. unfold saveHistory.
  destruct (history (app w')) as [|e' h'] eqn:Hh'; cbn.
  - rewrite Hsto, Hsync.
    destruct Hlog as [<-|[e He]]; [reflexivity|discriminate He].
  - reflexivity.
Qed.

Lemma synced_mount (now : Z) (w w' : World) :
  synced w -> mount now (storage w) = Ok w' ->
  synced w' /\ history (app w') = history (app w).
Proof.
  unfold synced. intros Hsync. rewrite Hsync. unfold mount, loadHistory.
  destruct (history (app w)) as [|e h]; cbn;
    intros Heq; injection Heq as <-; split; try reflexivity.
  cbn. rewrite revive_id. destruct e. reflexivity.
Qed.

(** A click or a timer: a handler runs, then the save effect. *)
Lemma step_logStep (e : Event) (w w' : World) :
  e <> Reload -> (forall ms, e <> Elapse ms) -> step e w = Some w' ->
  exists w1, logStep w w1 /\ w' = saveHistory w1.
Proof.
  intros Hne Hnw. destruct e as [ms|rnd| | |h rnd|]; cbn [step].
  - now elim (Hnw ms).
  - intros Heq. injection Heq as <-. eexists.
    split; [apply logStep_requestSteamCode|reflexivity].
  - intros Heq. injection Heq as <-. eexists.
    split; [apply logStep_resetInterface|reflexivity].
  - intros Heq. injection Heq as <-. exists (toggleHistory w).
    split; [apply logStep_same; reflexivity|reflexivity].
  - destruct (fire h rnd w) as [w1|] eqn:Hfire; [|discriminate].
    cbn. intros Heq. injection Heq as <-. exists w1.
    split; [exact (logStep_fire h rnd w w1 Hfire)|reflexivity].
  - now elim Hne.
Qed.

Lemma eventKind (e : Event) :
  e = Reload \/ (exists ms, e = Elapse ms) \/
  (e <> Reload /\ forall ms, e <> Elapse ms).
Proof.
  destruct e; try (right; right; split; [|intros ms]; discriminate).
  - right. left. eexists. reflexivity.
  - left. reflexivity.
Qed.

Lemma reachable_synced (w : World) : reachable w -> synced w.
Proof.
  induction 1 as [now w Hmount|e w w' _ IH Hstep].
  - injection Hmount as <-. reflexivity.
  - destruct (eventKind e) as [->|[[ms ->]|[Hne Hnw]]].
    + cbn [step] in Hstep.
      destruct (mount (clock w) (storage w)) as [w1|ex] eqn:Hmount; [|discriminate].
      injection Hstep as <-. exact (proj1 (synced_mount _ w w1 IH Hmount)).
    + cbn [step] in Hstep. destruct (0 <=? ms); [|discriminate].
      injection Hstep as <-. exact IH.
    + destruct (step_logStep e w w' Hne Hnw Hstep) as (w1 & Hlog & ->).
      exact (synced_saveHistory w w1 IH Hlog).
Qed.

(** In a reachable world the save effect has nothing left to do: running
    it after every event, as [step] does, is the same as running it only
    when the history was replaced. *)
Lemma saveHistory_reachable (w : World) : reachable w -> saveHistory w = w.
Proof.
  intros Hreach. pose proof (reachable_synced w Hreach) as Hsync.
  unfold synced in Hsync. unfold saveHistory.
  destruct w as [a tm nh ck sto]. cbn in *.
  destruct (history a) as [|e h]; cbn; [reflexivity|].
  rewrite Hsync. reflexivity.
Qed.

(** Whatever happens, a reload included, the history changes by an
    append or not at all. *)
Lemma history_append_only (e : Event) (w w' : World) :
  reachable w -> step e w = Some w' ->
  history (app w') = history (app w) \/
  exists newRequest,
    history (app w') = appendHistory newRequest (history (app w)).
Proof.
  intros Hreach Hstep.
  destruct (eventKind e) as [->|[[ms ->]|[Hne Hnw]]].
  - cbn [step] in Hstep.
    destruct (mount (clock w) (storage w)) as [w1|ex] eqn:Hmount; [|discriminate].
    injection Hstep as <-. left.
    exact (proj2 (synced_mount _ w w1 (reachable_synced w Hreach) Hmount)).
  - cbn [step] in Hstep. destruct (0 <=? ms); [|discriminate].
    injection Hstep as <-. left. reflexivity.
  - destruct (step_logStep e w w' Hne Hnw Hstep) as (w1 & Hlog & ->).
    rewrite app_saveHistory. exact (proj2 Hlog).
Qed.

Section Appends.

Variable T : Type.

(** Cutting the tail of a list does not show in a prefix that ends before
    the cut. *)
Lemma firstn_app_firstn (front back : list T) (n m : nat) :
  (n <= List.length front + m)%nat ->
  firstn n (front ++ firstn m back) = firstn n (front ++ back).
Proof.
  revert n. induction front as [|a front IH]; intros n Hn; cbn in *.
  - rewrite firstn_firstn. f_equal. lia.
  - destruct n as [|n]; [reflexivity|]. cbn. f_equal. apply IH. lia.
Qed.

End Appends.

(** After at least one append the log is the ten newest of everything. *)
Lemma appendAll_firstn (e : CodeRequest) (es prev : list CodeRequest) :
  appendAll (e :: es) prev = firstn 10 (rev (e :: es) ++ prev).
Proof.
  revert e prev. induction es as [|e' es IH]; intros e prev.
  - reflexivity.
  - change (appendAll (e :: e' :: es) prev)
      with (appendAll (e' :: es) (appendHistory e prev)).
    rewrite IH. unfold appendHistory.
    change (rev (e :: e' :: es)) with (rev (e' :: es) ++ [e])%list.
    rewrite <- app_assoc. cbn [app].
    change (e :: firstn 9 prev) with ([e] ++ firstn 9 prev)%list.
    change (e :: prev) with ([e] ++ prev)%list.
    rewrite !app_assoc. apply firstn_app_firstn.
    rewrite length_app. cbn. lia.
Qed.

Lemma appendAll_eleven (first last : CodeRequest) (rest prev : list CodeRequest) :
  List.length rest = 9%nat ->
  appendAll (first :: rest ++ [last]) prev = last :: rev rest.
Proof.
  intros Hlen. rewrite appendAll_firstn.
  assert (Hrev : (rev (first :: rest ++ [last]) ++ prev)%list
                 = ((last :: rev rest) ++ first :: prev)%list).
  { cbn [rev]. rewrite rev_app_distr, <- app_assoc. reflexivity. }
  assert (Hten : List.length (last :: rev rest) = 10%nat)
    by (cbn [List.length]; rewrite length_rev, Hlen; reflexivity).
  rewrite Hrev, firstn_app, Hten, firstn_all2 by (rewrite Hten; apply le_n).
  cbn. f_equal. apply app_nil_r.
Qed.

(** *** A first load over any store *)

(** A first load accepts exactly the texts [storedItems] reads, and takes
    all their entries. *)
Lemma kept_mount (now : Z) (stored : option text) (w : World) :
  mount now stored = Ok w ->
  kept w /\ storedItems stored = Some (history (app w)).
Proof.
  unfold kept, mount, loadHistory. cbn [storage].
  destruct stored as [[| |[items|]]|]; try discriminate;
    intros Heq; injection Heq as <-; try (split; reflexivity).
  rewrite app_saveHistory. unfold saveHistory, setHistory, onApp.
  cbn [app history storage]. rewrite revive_id.
  destruct items as [|item items]; split; reflexivity.
Qed.

Lemma kept_saveHistory (w w' : World) :
  kept w -> logStep w w' -> kept (saveHistory w').
Proof.
  unfold kept. intros Hkept [Hsto Hlog].
  rewrite app_saveHistory. unfold saveHistory.
  destruct (history (app w')) as [|e' h'] eqn:Hh'; cbn.
  - rewrite Hsto, Hkept.
    destruct Hlog as [<-|[e He]]; [reflexivity|discriminate He].
  - reflexivity.
Qed.

(** Whatever happens, a reload included, the history changes by an append
    or not at all, and the store keeps giving it back. *)
Lemma kept_step (e : Event) (w w' : World) :
  kept w -> step e w = Some w' ->
  kept w' /\
  (history (app w') = history (app w) \/
   exists newRequest,
     history (app w') = appendHistory newRequest (history (app w))).
Proof.
  intros Hkept Hstep.
  destruct (eventKind e) as [->|[[ms ->]|[Hne Hnw]]].
  - cbn [step] in Hstep.
    destruct (mount (clock w) (storage w)) as [w1|ex] eqn:Hmount; [|discriminate].
    injection Hstep as <-.
    destruct (kept_mount _ _ _ Hmount) as [Hk Hitems].
    split; [exact Hk|]. left. unfold kept in Hkept.
    rewrite Hkept in Hitems. injection Hitems as <-. reflexivity.
  - cbn [step] in Hstep. destruct (0 <=? ms); [|discriminate].
    injection Hstep as <-. split; [exact Hkept|left; reflexivity].
  - destruct (step_logStep e w w' Hne Hnw Hstep) as (w1 & Hlog & ->).
    split; [exact (kept_saveHistory w w1 Hkept Hlog)|].
    rewrite app_saveHistory. exact (proj2 Hlog).
Qed.

Lemma reachableFrom_kept (stored : option text) (w : World) :
  reachableFrom stored w -> kept w.
Proof.
  induction 1 as [now w Hmount|e w w' _ IH Hstep].
  - exact (proj1 (kept_mount now stored w Hmount)).
  - exact (proj1 (kept_step e w w' IH Hstep)).
Qed.

(** The history is as long as the stored one until the first append, and
    at most 10 long from then on. *)
Lemma reachableFrom_length (stored : option text) (w : World) :
  reachableFrom stored w ->
  (List.length (history (app w)) <= Nat.max 10 (storedLength stored))%nat.
Proof.
  induction 1 as [now w Hmount|e w w' Hreach IH Hstep].
  - destruct (kept_mount now stored w Hmount) as [_ Hitems].
    destruct stored as [[| |[items|]]|]; try discriminate Hitems;
      injection Hitems as <-; cbn [storedLength List.length]; lia.
  - destruct (kept_step e w w' (reachableFrom_kept stored w Hreach) Hstep)
      as [_ [->|[newRequest ->]]]; [exact IH|].
    pose proof (appendHistory_length newRequest (history (app w))). lia.
Qed.

(** C4, counterexample: the load effect takes a stored array whole. Over
    a stored history of twelve entries the page comes up with twelve
    entries in its history. *)
Lemma history_at_most_ten_counterexample : ~ history_at_most_ten.
Proof.
  intros H.
  assert (Hlen : (List.length (history (app overfullWorld)) <= 10)%nat).
  { apply (H overfullStore). apply (from_install overfullStore T0). reflexivity. }
  vm_compute in Hlen. lia.
Qed.

(** The twelve entries stay through every event that does not append, a
    reload included. *)
Example overfull_history_stays :
  option_map (fun w => List.length (history (app w)))
    (run [ClickHistory; ClickRequest draw3000; Elapse 500; ClickReset; Reload]
       overfullWorld)
  = Some 12%nat.
Proof. by_running. Qed.

(** C4, as amended: the history never holds more than 10 entries or, if
    the history that the first load found in the store was longer, more
    than that one held; in particular it holds at most 10 whenever the
    stored history held at most 10 (or there was none). No event changes
    it other than by an append. An append puts the new entry at index 0
    and never leaves more than 10; below capacity it keeps every older
    entry, at capacity it drops the last, which is the oldest. After 11
    appends onto any log the log is exactly the 10 later entries, newest
    first: the newest is at index 0 and the first-appended entry is not in
    it (unless one of the later ten is equal to it). *)
Theorem history_bounded_newest_first
    (stored : option text) (w : World) (e : Event)
    (newRequest : CodeRequest) (prev : list CodeRequest)
    (first last : CodeRequest) (rest : list CodeRequest) :
  reachableFrom stored w ->
  List.length rest = 9%nat ->
  (List.length (history (app w)) <= Nat.max 10 (storedLength stored))%nat /\
  ((storedLength stored <= 10)%nat ->
   (List.length (history (app w)) <= 10)%nat) /\
  (forall w', step e w = Some w' ->
     history (app w') = history (app w) \/
     exists appended,
       history (app w') = appendHistory appended (history (app w))) /\
  nth_error (appendHistory newRequest prev) 0 = Some newRequest /\
  (List.length (appendHistory newRequest prev) <= 10)%nat /\
  ((List.length prev < 10)%nat ->
   appendHistory newRequest prev = newRequest :: prev) /\
  (List.length prev = 10%nat ->
   appendHistory newRequest prev = newRequest :: removelast prev) /\
  appendAll (first :: rest ++ [last]) prev = last :: rev rest /\
  nth_error (appendAll (first :: rest ++ [last]) prev) 0 = Some last /\
  (~ In first (rest ++ [last]) ->
   ~ In first (appendAll (first :: rest ++ [last]) prev)).
Proof.
  intros Hreach Hlen.
  pose proof (reachableFrom_length stored w Hreach) as Hbound.
  split; [exact Hbound|].
  split; [intros Hstored; lia|].
  split.
  { intros w' Hstep.
    exact (proj2 (kept_step e w w' (reachableFrom_kept stored w Hreach) Hstep)). }
  split; [reflexivity|].
  split; [apply appendHistory_length|].
  split; [|split].
  - intros Hlt. unfold appendHistory. rewrite firstn_all2 by lia. reflexivity.
  - intros Hfull. unfold appendHistory.
    rewrite removelast_firstn_len, Hfull. reflexivity.
  - rewrite (appendAll_eleven first last rest prev Hlen).
    split; [reflexivity|]. split; [reflexivity|].
    intros Hnot Hin. apply Hnot. apply in_or_app.
    destruct Hin as [<-|Hin].
    + right. left. reflexivity.
    + left. apply in_rev. exact Hin.
Qed.

Lemma history_bounded_newest_first_witness :
  (List.length (history (app overfullWorld))
   <= Nat.max 10 (storedLength overfullStore))%nat /\
  ((storedLength overfullStore <= 10)%nat ->
   (List.length (history (app overfullWorld)) <= 10)%nat) /\
  (forall w', step (ClickRequest draw3000) overfullWorld = Some w' ->
     history (app w') = history (app overfullWorld) \/
     exists appended,
       history (app w') = appendHistory appended (history (app overfullWorld))) /\
  nth_error (appendHistory (entry 0) olderEntries) 0 = Some (entry 0) /\
  (List.length (appendHistory (entry 0) olderEntries) <= 10)%nat /\
  ((List.length olderEntries < 10)%nat ->
   appendHistory (entry 0) olderEntries = entry 0 :: olderEntries) /\
  (List.length olderEntries = 10%nat ->
   appendHistory (entry 0) olderEntries = entry 0 :: removelast olderEntries) /\
  appendAll (entry 11 :: laterEntries ++ [entry 21]) olderEntries
  = entry 21 :: rev laterEntries /\
  nth_error (appendAll (entry 11 :: laterEntries ++ [entry 21]) olderEntries) 0
  = Some (entry 21) /\
  (~ In (entry 11) (laterEntries ++ [entry 21]) ->
   ~ In (entry 11)
       (appendAll (entry 11 :: laterEntries ++ [entry 21]) olderEntries)).
Proof.
  apply (history_bounded_newest_first overfullStore overfullWorld
           (ClickRequest draw3000) (entry 0) olderEntries
           (entry 11) (entry 21) laterEntries).
  - apply (from_install overfullStore T0). reflexivity.
  - reflexivity.
Defined.

(** * Further properties *)

(** ** The simulator *)

Lemma length_append (s1 s2 : string) :
  String.length (s1 ++ s2) = (String.length s1 + String.length s2)%nat.
Proof. induction s1 as [|c s1 IH]; cbn; [|rewrite IH]; reflexivity. Qed.

Lemma charsOf_append (s1 s2 : string) :
  charsOf (s1 ++ s2) = (charsOf s1 ++ charsOf s2)%list.
Proof.
  unfold charsOf. induction s1 as [|c s1 IH]; cbn; [|rewrite IH]; reflexivity.
Qed.

Lemma get_in_range (s : string) (n : nat) :
  (n < String.length s)%nat ->
  exists c, String.get n s = Some c /\ In c (charsOf s).
Proof.
  revert n. induction s as [|a s IH]; intros n Hn; cbn in Hn; [lia|].
  destruct n as [|n]; cbn.
  - exists a. split; [reflexivity|left; reflexivity].
  - destruct (IH n) as (c & Hget & Hin); [lia|].
    exists c. split; [exact Hget|right; exact Hin].
Qed.

(** [charAt] is one character of the string inside it, nothing outside. *)
Lemma charAt_shape (s : string) (i : Z) :
  (0 <= i < Z.of_nat (String.length s) ->
   exists c, charAt s i = String c "" /\ In c (charsOf s)) /\
  (String.length (charAt s i) <= 1)%nat.
Proof.
  unfold charAt. split.
  - intros [Hlo Hhi]. replace (i <? 0) with false by (symmetry; apply Z.ltb_ge; exact Hlo).
    destruct (get_in_range s (Z.to_nat i)) as (c & Hget & Hin); [lia|].
    rewrite Hget. exists c. split; [reflexivity|exact Hin].
  - destruct (i <? 0); [cbn; lia|].
    destruct (String.get (Z.to_nat i) s); cbn; lia.
Qed.

(** A draw in [0, 1) picks an index into the 36 characters. *)
Lemma draw_index (r : Q) :
  (0 <= r)%Q -> (r < 1)%Q ->
  0 <= Math_floor (r * inject_Z (Z.of_nat (String.length Steam2FASimulator.chars)))
    < Z.of_nat (String.length Steam2FASimulator.chars).
Proof.
  intros H0 H1. unfold Math_floor.
  change (inject_Z (Z.of_nat (String.length Steam2FASimulator.chars))) with 36%Q.
  change (Z.of_nat (String.length Steam2FASimulator.chars)) with 36.
  split.
  - change 0 with (Qfloor 0). apply Qfloor_resp_le.
    apply Qmult_le_0_compat; [exact H0|discriminate].
  - assert (Hlt : (inject_Z (Qfloor (r * 36)) < inject_Z 36)%Q).
    { apply Qle_lt_trans with (r * 36)%Q; [apply Qfloor_le|].
      setoid_replace (inject_Z 36) with (1 * 36)%Q by reflexivity.
      apply Qmult_lt_compat_r; [reflexivity|exact H1]. }
    rewrite <- Zlt_Qlt in Hlt. exact Hlt.
Qed.

Lemma Math_random_unit (rnd : list Q) :
  unitDraws rnd ->
  ((0 <= fst (Math_random rnd))%Q /\ (fst (Math_random rnd) < 1)%Q) /\
  unitDraws (snd (Math_random rnd)) /\
  snd (Math_random rnd) = skipn 1 rnd.
Proof.
  intros Hrnd. destruct Hrnd as [|r rnd Hr Hrnd]; cbn.
  - split; [split; [apply Qle_refl|reflexivity]|].
    split; [constructor|reflexivity].
  - split; [exact Hr|]. split; [exact Hrnd|reflexivity].
Qed.

Lemma generateRandomCode_loop_shape (n : nat) (result : string) (rnd : list Q) :
  unitDraws rnd ->
  let out := Steam2FASimulator.generateRandomCode_loop n result rnd in
  String.length (fst out) = (String.length result + n)%nat /\
  (Forall (fun c => In c (charsOf Steam2FASimulator.chars)) (charsOf result) ->
   Forall (fun c => In c (charsOf Steam2FASimulator.chars)) (charsOf (fst out))) /\
  snd out = skipn n rnd.
Proof.
  revert result rnd. induction n as [|n IH]; intros result rnd Hrnd; cbn zeta.
  - cbn. repeat split; [lia|auto].
  - cbn [Steam2FASimulator.generateRandomCode_loop]. unfold bind.
    destruct (Math_random_unit rnd Hrnd) as ([H0 H1] & Hrest & Hskip).
    destruct (Math_random rnd) as [r rnd'] eqn:Hdraw. cbn [fst snd] in *.
    destruct (proj1 (charAt_shape Steam2FASimulator.chars _) (draw_index r H0 H1))
      as (c & Hc & Hin).
    rewrite Hc.
    destruct (IH (result ++ String c "") rnd' Hrest) as (Hlen & Hall & Hsnd).
    split; [|split].
    + rewrite Hlen, length_append. cbn. lia.
    + intros Hres. apply Hall. rewrite charsOf_append.
      apply Forall_app. split; [exact Hres|].
      constructor; [exact Hin|constructor].
    + rewrite Hsnd, Hskip.
      destruct rnd; [cbn; rewrite skipn_nil; reflexivity|reflexivity].
Qed.

(** X1: with draws as [Math.random()] makes them, [generateRandomCode]
    returns exactly five characters, each one of the 36 of its alphabet,
    and uses up exactly five draws. *)
Theorem generateRandomCode_shape (rnd : list Q) :
  unitDraws rnd ->
  String.length (fst (Steam2FASimulator.generateRandomCode rnd)) = 5%nat /\
  Forall (fun c => In c (charsOf Steam2FASimulator.chars))
    (charsOf (fst (Steam2FASimulator.generateRandomCode rnd))) /\
  snd (Steam2FASimulator.generateRandomCode rnd) = skipn 5 rnd.
Proof.
  intros Hrnd.
  destruct (generateRandomCode_loop_shape 5 "" rnd Hrnd) as (Hlen & Hall & Hsnd).
  split; [exact Hlen|]. split; [apply Hall; constructor|exact Hsnd].
Qed.

Lemma generateRandomCode_shape_witness :
  String.length (fst (Steam2FASimulator.generateRandomCode drawsAB3K9)) = 5%nat /\
  Forall (fun c => In c (charsOf Steam2FASimulator.chars))
    (charsOf (fst (Steam2FASimulator.generateRandomCode drawsAB3K9))) /\
  snd (Steam2FASimulator.generateRandomCode drawsAB3K9) = skipn 5 drawsAB3K9.
Proof.
  apply (generateRandomCode_shape drawsAB3K9).
  repeat constructor; solve [discriminate|reflexivity].
Defined.

Lemma generateRandomCode_loop_short (n : nat) (result : string) (rnd : list Q) :
  (String.length (fst (Steam2FASimulator.generateRandomCode_loop n result rnd))
   <= String.length result + n)%nat.
Proof.
  revert result rnd. induction n as [|n IH]; intros result rnd.
  - cbn. lia.
  - cbn [Steam2FASimulator.generateRandomCode_loop]. unfold bind.
    destruct (Math_random rnd) as [r rnd'].
    etransitivity; [apply IH|]. rewrite length_append.
    pose proof (proj2 (charAt_shape Steam2FASimulator.chars
      (Math_floor (r * inject_Z (Z.of_nat (String.length Steam2FASimulator.chars)))))).
    lia.
Qed.

(** X2: whatever the draws, a generated code is never the text TIMEOUT
    that the ticker writes as the code of a timed-out request; there are
    draws of [Math.random()], though, for which the generated code is the
    text ERROR that the [catch] branch writes as the code of a failed
    lookup. *)
Theorem generated_code_and_sentinels :
  (forall rnd, fst (Steam2FASimulator.generateRandomCode rnd) <> "TIMEOUT") /\
  (unitDraws drawsERROR /\
   fst (Steam2FASimulator.generateRandomCode drawsERROR) = "ERROR").
Proof.
  split.
  - intros rnd Heq.
    pose proof (generateRandomCode_loop_short 5 "" rnd) as Hlen.
    unfold Steam2FASimulator.generateRandomCode in Heq. rewrite Heq in Hlen.
    cbn in Hlen. lia.
  - split; [repeat constructor; solve [discriminate|reflexivity]|by_running].
Qed.

Lemma Qlt_bool_iff (x y : Q) : Qlt_bool x y = true <-> (x < y)%Q.
Proof.
  unfold Qlt_bool. split.
  - intros H. apply Qnot_le_lt. intros Hle.
    apply Qle_bool_iff in Hle. rewrite Hle in H. discriminate H.
  - intros H. destruct (Qle_bool y x) eqn:Hle; [|reflexivity].
    apply Qle_bool_iff in Hle. elim (Qlt_not_le _ _ H Hle).
Qed.

Lemma Math_round_le_8000 (s : Q) : (s < 8000)%Q -> Math_round s <= 8000.
Proof.
  intros H. unfold Math_round.
  change 8000 with (Qfloor (8000 + (1 # 2))).
  apply Qfloor_resp_le. apply Qplus_le_l. apply Qlt_le_weak. exact H.
Qed.

(** X3: a search whose first draw comes from [Math.random()] resolves
    exactly when its second draw is below the double that the literal 0.95
    denotes (a draw equal to that double throws), with the code generated
    from the draws that follow and a whole number of milliseconds between
    2000 and 8000 as search time; otherwise it throws "Código não
    encontrado". *)
Theorem simulateSearch_outcome (r0 r1 : Q) (rnd : list Q) :
  (0 <= r0)%Q -> (r0 < 1)%Q ->
  let searchTime := fst (Steam2FASimulator.simulateSearch_searchTime [r0]) in
  let settled := fst (Steam2FASimulator.simulateSearch_resume searchTime (r1 :: rnd)) in
  ((r1 < Steam2FASimulator.literal_0_95)%Q ->
   exists result,
     settled = Ok result /\
     result_code result = fst (Steam2FASimulator.generateRandomCode rnd) /\
     2000 <= result_searchTime result <= 8000) /\
  ((Steam2FASimulator.literal_0_95 <= r1)%Q ->
   settled = Throws (LookupError "Código não encontrado")) /\
  (Steam2FASimulator.literal_0_95 < 0.95)%Q.
Proof.
  intros H0 H1 searchTime settled.
  destruct (simulateSearch_searchTime_range r0 [] H0 H1) as [Hlo Hhi].
  fold searchTime in Hlo, Hhi. subst settled. clearbody searchTime.
  unfold Steam2FASimulator.simulateSearch_resume, bind. cbn [Math_random].
  split; [|split].
  - intros Hr. apply Qlt_bool_iff in Hr. rewrite Hr.
    destruct (Steam2FASimulator.generateRandomCode rnd) as [c rest].
    cbn [fst ret]. eexists. split; [reflexivity|].
    cbn [result_code result_searchTime]. split; [reflexivity|].
    split; [apply Math_round_ge_2000; exact Hlo|apply Math_round_le_8000; exact Hhi].
  - intros Hr.
    destruct (Qlt_bool r1 Steam2FASimulator.literal_0_95) eqn:Hlt; [|reflexivity].
    apply Qlt_bool_iff in Hlt. elim (Qlt_not_le _ _ Hlt Hr).
  - reflexivity.
Qed.

Lemma simulateSearch_outcome_witness :
  let searchTime := fst (Steam2FASimulator.simulateSearch_searchTime [(11 # 64)%Q]) in
  let settled :=
    fst (Steam2FASimulator.simulateSearch_resume searchTime
           (Steam2FASimulator.literal_0_95 :: drawsERROR)) in
  ((Steam2FASimulator.literal_0_95 < Steam2FASimulator.literal_0_95)%Q ->
   exists result,
     settled = Ok result /\
     result_code result = fst (Steam2FASimulator.generateRandomCode drawsERROR) /\
     2000 <= result_searchTime result <= 8000) /\
  ((Steam2FASimulator.literal_0_95 <= Steam2FASimulator.literal_0_95)%Q ->
   settled = Throws (LookupError "Código não encontrado")) /\
  (Steam2FASimulator.literal_0_95 < 0.95)%Q.
Proof.
  apply (simulateSearch_outcome (11 # 64) Steam2FASimulator.literal_0_95 drawsERROR).
  - discriminate.
  - reflexivity.
Defined.

(** ** Timer handles are handed out once *)

Lemma tidy_frame (w w' : World) :
  timers w' = timers w ->
  nextHandle w' = nextHandle w ->
  intervalRef (app w') = intervalRef (app w) ->
  timeoutRef (app w') = timeoutRef (app w) ->
  tidy w -> tidy w'.
Proof.
  unfold tidy, handedOut. intros -> -> -> ->. exact (fun H => H).
Qed.

Lemma tidy_addTimer (cb : Callback) (delay : Z) (period : option Z) (w : World) :
  tidy w -> tidy (snd (addTimer cb delay period w)).
Proof.
  unfold tidy, handedOut. cbn. intros (Ht & Hi & Hg & Hki & Hkg).
  split; [|split; [|split; [|split]]].
  - intros t Hin. apply in_app_or in Hin. destruct Hin as [Hin|[<-|[]]].
    + specialize (Ht t Hin). lia.
    + cbn. lia.
  - destruct (intervalRef (app w)); [lia|exact I].
  - destruct (timeoutRef (app w)); [lia|exact I].
  - intros t Hin Href. apply in_app_or in Hin. destruct Hin as [Hin|[<-|[]]].
    + exact (Hki t Hin Href).
    + rewrite Href in Hi. cbn in Hi. lia.
  - intros t Hin Href. apply in_app_or in Hin. destruct Hin as [Hin|[<-|[]]].
    + exact (Hkg t Hin Href).
    + rewrite Href in Hg. cbn in Hg. lia.
Qed.

Lemma tidy_clearTimer (r : option positive) (w : World) :
  tidy w -> tidy (clearTimer r w).
Proof.
  unfold tidy. intros (Ht & Hi & Hg & Hki & Hkg). rewrite !app_clearTimer.
  destruct r as [h|]; cbn; [|auto 6].
  split; [|split; [|split; [|split]]]; try assumption.
  - intros t Hin. apply filter_In in Hin. apply Ht. exact (proj1 Hin).
  - intros t Hin. apply filter_In in Hin. apply Hki. exact (proj1 Hin).
  - intros t Hin. apply filter_In in Hin. apply Hkg. exact (proj1 Hin).
Qed.

Lemma tidy_reschedule (h : positive) (period : Z) (w : World) :
  tidy w -> tidy (reschedule h period w).
Proof.
  unfold tidy. cbn. intros (Ht & Hi & Hg & Hki & Hkg).
  split; [|split; [|split; [|split]]]; try assumption.
  - intros t Hin. apply in_map_iff in Hin. destruct Hin as (t0 & <- & Hin0).
    specialize (Ht t0 Hin0). destruct (hasHandle h t0); exact Ht.
  - intros t Hin. apply in_map_iff in Hin. destruct Hin as (t0 & <- & Hin0).
    specialize (Hki t0 Hin0). destruct (hasHandle h t0); exact Hki.
  - intros t Hin. apply in_map_iff in Hin. destruct Hin as (t0 & <- & Hin0).
    specialize (Hkg t0 Hin0). destruct (hasHandle h t0); exact Hkg.
Qed.

Lemma tidy_empty (a : App) (n : positive) (now : Z) (sto : option text) :
  intervalRef a = None -> timeoutRef a = None -> tidy (mkWorld a [] n now sto).
Proof.
  intros Hi Hg. unfold tidy, handedOut. cbn. rewrite Hi, Hg.
  split; [intros t []|]. split; [exact I|]. split; [exact I|].
  split; intros t [].
Qed.

Ltac tidy_tac :=
  repeat match goal with
  | |- tidy (snd (setTimeout _ _ _)) => apply tidy_addTimer
  | |- tidy (snd (addTimer _ _ _ _)) => apply tidy_addTimer
  | |- tidy (clearTimer _ _) => apply tidy_clearTimer
  | |- tidy (clearInterval _ _) => apply tidy_clearTimer
  | |- tidy (clearTimeout _ _) => apply tidy_clearTimer
  | |- tidy (reschedule _ _ _) => apply tidy_reschedule
  | |- tidy (showNotification _ _) => unfold showNotification; cbv zeta
  | |- tidy (setState _ ?w) => apply (tidy_frame w); [reflexivity..|]
  | |- tidy (setCurrentCode _ ?w) => apply (tidy_frame w); [reflexivity..|]
  | |- tidy (setProgress _ ?w) => apply (tidy_frame w); [reflexivity..|]
  | |- tidy (setTimeRemaining _ ?w) => apply (tidy_frame w); [reflexivity..|]
  | |- tidy (setHistory _ ?w) => apply (tidy_frame w); [reflexivity..|]
  | |- tidy (setShowHistory _ ?w) => apply (tidy_frame w); [reflexivity..|]
  | |- tidy (setNotification _ ?w) => apply (tidy_frame w); [reflexivity..|]
  | |- tidy (setLastRequestTime _ ?w) => apply (tidy_frame w); [reflexivity..|]
  | |- tidy (saveHistory ?w) =>
      apply (tidy_frame w);
      [apply timers_saveHistory|unfold saveHistory; destruct (0 <? _); reflexivity
      |rewrite app_saveHistory; reflexivity|rewrite app_saveHistory; reflexivity|]
  | |- tidy ?w => assumption
  end.

(** An accepted request, laid out: the fields it sets and the three timers
    it starts. *)
Lemma requestSteamCode_accepted (rnd : list Q) (w : World) :
  canRequestCode w = true ->
  state (app w) <> SEARCHING ->
  requestSteamCode rnd w =
  mkWorld
    (mkApp SEARCHING "" 0 45 (history (app w)) (showHistory (app w))
       (notification (app w)) (clock w)
       (Some (nextHandle w)) (Some (Pos.succ (nextHandle w))))
    (timers w ++
     [mkTimer (nextHandle w) (clock w + 100) (Some 100) (ProgressTick (clock w));
      mkTimer (Pos.succ (nextHandle w)) (clock w + 45000) None TimeoutGuard;
      mkTimer (Pos.succ (Pos.succ (nextHandle w)))
        (clock w
         + Z.max (Math_floor (fst (Steam2FASimulator.simulateSearch_searchTime rnd))) 0)
        None
        (LookupDelay (fst (Steam2FASimulator.simulateSearch_searchTime rnd)))])
    (Pos.succ (Pos.succ (Pos.succ (nextHandle w)))) (clock w) (storage w).
Proof.
  intros Hcan Hstate. unfold requestSteamCode. rewrite Hcan. cbn [negb].
  replace (AppState_eqb (state (app w)) SEARCHING) with false
    by (destruct (state (app w)); try reflexivity; now elim Hstate).
  generalize (fst (Steam2FASimulator.simulateSearch_searchTime rnd)). intros s.
  generalize (Math_floor s). intros d.
  destruct w as [a tm nh ck sto]. cbn. rewrite <- !app_assoc. reflexivity.
Qed.

Lemma tidy_requestSteamCode (rnd : list Q) (w : World) :
  tidy w -> tidy (requestSteamCode rnd w).
Proof.
  intros Hw. destruct (canRequestCode w) eqn:Hcan.
  - destruct (AppState_eqb (state (app w)) SEARCHING) eqn:Hs.
    + unfold requestSteamCode. rewrite Hcan, Hs. exact Hw.
    + rewrite requestSteamCode_accepted;
        [|exact Hcan|intros Heq; rewrite Heq in Hs; discriminate Hs].
      destruct Hw as (Ht & _ & _). unfold tidy, handedOut. cbn.
      split; [|split; [lia|split; [lia|split]]].
      * intros t Hin. apply in_app_or in Hin.
        destruct Hin as [Hin|[<-|[<-|[<-|[]]]]]; cbn; try lia.
        specialize (Ht t Hin). lia.
      * intros t Hin Href. injection Href as Href. apply in_app_or in Hin.
        destruct Hin as [Hin|[<-|[<-|[<-|[]]]]]; cbn in *; try lia.
        -- specialize (Ht t Hin). lia.
        -- eexists. reflexivity.
      * intros t Hin Href. injection Href as Href. apply in_app_or in Hin.
        destruct Hin as [Hin|[<-|[<-|[<-|[]]]]]; cbn in *; try lia.
        -- specialize (Ht t Hin). lia.
        -- reflexivity.
  - unfold requestSteamCode. rewrite Hcan. cbn [negb]. tidy_tac.
Qed.

Lemma tidy_runCallback (cb : Callback) (rnd : list Q) (w : World) :
  tidy w -> tidy (runCallback cb rnd w).
Proof.
  intros Hw. destruct cb as [|startTime| |s|]; cbn [runCallback].
  - tidy_tac.
  - unfold progressTick. cbv zeta.
    destruct (_ <=? 0); tidy_tac.
  - unfold timeoutGuard. cbv zeta. tidy_tac.
  - unfold lookupSettled.
    destruct (fst (Steam2FASimulator.simulateSearch_resume s rnd));
      cbv zeta; tidy_tac.
  - tidy_tac.
Qed.

Lemma tidy_step (e : Event) (w w' : World) :
  tidy w -> step e w = Some w' -> tidy w'.
Proof.
  intros Hw. destruct e as [ms|rnd| | |h rnd|]; cbn [step].
  - destruct (0 <=? ms); [|discriminate].
    intros Heq. injection Heq as <-. exact Hw.
  - intros Heq. injection Heq as <-.
    pose proof (tidy_requestSteamCode rnd w Hw). tidy_tac.
  - intros Heq. injection Heq as <-.
    assert (tidy (resetInterface w))
      by (rewrite resetInterface_clears; tidy_tac).
    tidy_tac.
  - intros Heq. injection Heq as <-. unfold toggleHistory. tidy_tac.
  - unfold fire. destruct (findTimer h w) as [t|]; [|discriminate].
    destruct (due t <=? clock w); [|discriminate].
    destruct (every t) as [period|]; cbn; intros Heq; injection Heq as <-.
    + assert (tidy (runCallback (callback t) rnd w))
        by (apply tidy_runCallback; exact Hw).
      tidy_tac.
    + assert (tidy (runCallback (callback t) rnd (clearTimer (Some h) w)))
        by (apply tidy_runCallback; tidy_tac).
      tidy_tac.
  - unfold mount, loadHistory. cbn [storage].
    destruct (storage w) as [[| |[items|]]|]; try discriminate;
      intros Heq; injection Heq as <-;
      tidy_tac; apply tidy_empty; reflexivity.
Qed.

Lemma reachable_tidy (w : World) : reachable w -> tidy w.
Proof.
  induction 1 as [now w Hmount|e w w' _ IH Hstep].
  - injection Hmount as <-. apply tidy_empty; reflexivity.
  - exact (tidy_step e w w' IH Hstep).
Qed.

Lemma find_app_split (f : Timer -> bool) (l1 l2 : list Timer) :
  find f (l1 ++ l2) =
  match find f l1 with
  | Some t => Some t
  | None => find f l2
  end.
Proof.
  induction l1 as [|a l1 IH]; cbn; [reflexivity|].
  destruct (f a); [reflexivity|exact IH].
Qed.

Lemma find_fresh (w : World) (h : positive) :
  tidy w -> (nextHandle w <= h)%positive -> find (hasHandle h) (timers w) = None.
Proof.
  intros (Ht & _) Hle.
  destruct (find (hasHandle h) (timers w)) as [t|] eqn:Hfind; [|reflexivity].
  apply find_some in Hfind. destruct Hfind as [Hin Hh].
  unfold hasHandle in Hh. apply Pos.eqb_eq in Hh.
  specialize (Ht t Hin). lia.
Qed.

Lemma hasHandle_other (h h' : positive) (t : Timer) :
  handle t = h' -> h' <> h -> hasHandle h t = false.
Proof. intros <- Hne. unfold hasHandle. apply Pos.eqb_neq. exact Hne. Qed.

Lemma hasHandle_same (h : positive) (t : Timer) :
  handle t = h -> hasHandle h t = true.
Proof. intros <-. unfold hasHandle. apply Pos.eqb_refl. Qed.

(** ** Starting a search *)

Lemma requestDisabled_false (w : World) :
  requestDisabled w = false ->
  canRequestCode w = true /\ state (app w) <> SEARCHING.
Proof.
  unfold requestDisabled. intros H. apply orb_false_elim in H.
  destruct H as [Hs Hc]. split.
  - destruct (canRequestCode w); [reflexivity|discriminate Hc].
  - intros Heq. rewrite Heq in Hs. discriminate Hs.
Qed.

(** X4: the request handler and the [disabled] attribute of its button
    use the same two tests, the attribute at a render, the handler when it
    is called. Take a render and a later call with the component's state
    as that render saw it. If the render left the button enabled, the call
    starts a search, records its own time as the issuance time, and the
    render that follows disables the button. If the attribute's expression
    is true at the time of the call, the handler leaves the lifecycle
    state, the transient fields, the issuance time and the history alone
    and starts nothing but, at most, the expiry of the refusal
    notification. And a button that the render disabled for the cooldown
    only is not enabled by the cooldown running out: more than 60 000 ms
    after the issuance the handler accepts a call, while the page still
    has the attribute of that render. *)
Theorem request_button_agrees (rendered w : World) (rnd : list Q) :
  app w = app rendered ->
  clock rendered <= clock w ->
  (requestDisabled rendered = false ->
   state (app (requestSteamCode rnd w)) = SEARCHING /\
   lastRequestTime (app (requestSteamCode rnd w)) = clock w /\
   requestDisabled (requestSteamCode rnd w) = true) /\
  (requestDisabled w = true ->
   state (app (requestSteamCode rnd w)) = state (app w) /\
   currentCode (app (requestSteamCode rnd w)) = currentCode (app w) /\
   progress (app (requestSteamCode rnd w)) = progress (app w) /\
   timeRemaining (app (requestSteamCode rnd w)) = timeRemaining (app w) /\
   lastRequestTime (app (requestSteamCode rnd w)) = lastRequestTime (app w) /\
   history (app (requestSteamCode rnd w)) = history (app w) /\
   forall t, In t (timers (requestSteamCode rnd w)) ->
             In t (timers w) \/ callback t = ClearNotification) /\
  (requestDisabled rendered = true ->
   state (app rendered) <> SEARCHING ->
   60000 < clock w - lastRequestTime (app w) ->
   requestDisabled w = false /\
   state (app (requestSteamCode rnd w)) = SEARCHING).
Proof.
  intros Happ Hclock.
  assert (Haccept : canRequestCode w = true -> state (app w) <> SEARCHING ->
            state (app (requestSteamCode rnd w)) = SEARCHING /\
            lastRequestTime (app (requestSteamCode rnd w)) = clock w /\
            requestDisabled (requestSteamCode rnd w) = true).
  { intros Hcan Hs. rewrite (requestSteamCode_accepted rnd w Hcan Hs). cbn.
    split; [reflexivity|]. split; reflexivity. }
  split; [|split].
  - intros Hen. destruct (requestDisabled_false rendered Hen) as [Hcan Hs].
    apply Haccept; [|rewrite Happ; exact Hs].
    unfold canRequestCode, Date_now in *. rewrite Happ.
    rewrite Z.gtb_ltb in *. apply Z.ltb_lt in Hcan. apply Z.ltb_lt. lia.
  - intros Hdis. unfold requestSteamCode.
    destruct (canRequestCode w) eqn:Hcan; cbn [negb].
    + unfold requestDisabled in Hdis. rewrite Hcan, orb_false_r in Hdis.
      rewrite Hdis. repeat split. intros t Ht. left. exact Ht.
    + unfold showNotification. cbn. repeat split.
      intros t Ht. apply in_app_or in Ht. destruct Ht as [Ht|[<-|[]]].
      * left. exact Ht.
      * right. reflexivity.
  - intros _ Hs Hcool.
    assert (Hcan : canRequestCode w = true).
    { unfold canRequestCode, Date_now. rewrite Z.gtb_ltb. apply Z.ltb_lt. exact Hcool. }
    assert (Hs' : state (app w) <> SEARCHING) by (rewrite Happ; exact Hs).
    split; [|exact (proj1 (Haccept Hcan Hs'))].
    unfold requestDisabled. rewrite Hcan.
    destruct (state (app w)); try reflexivity. now elim Hs'.
Qed.

Lemma request_button_agrees_witness :
  (requestDisabled successWorld = true /\
   state (app successWorld) = SUCCESS /\
   clock (later 28000 successWorld)
   - lastRequestTime (app (later 28000 successWorld)) = 61031) /\
  let rendered := successWorld in
  let w := later 28000 successWorld in
  let rnd := draw3000 in
  (requestDisabled rendered = false ->
   state (app (requestSteamCode rnd w)) = SEARCHING /\
   lastRequestTime (app (requestSteamCode rnd w)) = clock w /\
   requestDisabled (requestSteamCode rnd w) = true) /\
  (requestDisabled w = true ->
   state (app (requestSteamCode rnd w)) = state (app w) /\
   currentCode (app (requestSteamCode rnd w)) = currentCode (app w) /\
   progress (app (requestSteamCode rnd w)) = progress (app w) /\
   timeRemaining (app (requestSteamCode rnd w)) = timeRemaining (app w) /\
   lastRequestTime (app (requestSteamCode rnd w)) = lastRequestTime (app w) /\
   history (app (requestSteamCode rnd w)) = history (app w) /\
   forall t, In t (timers (requestSteamCode rnd w)) ->
             In t (timers w) \/ callback t = ClearNotification) /\
  (requestDisabled rendered = true ->
   state (app rendered) <> SEARCHING ->
   60000 < clock w - lastRequestTime (app w) ->
   requestDisabled w = false /\
   state (app (requestSteamCode rnd w)) = SEARCHING).
Proof.
  split; [split; [by_running|split; by_running]|].
  apply (request_button_agrees successWorld (later 28000 successWorld) draw3000).
  - vm_compute. reflexivity.
  - vm_compute. discriminate.
Defined.

(** X5: in a reachable world an accepted request, its draw taken from
    [Math.random()], clears the code on display, sets progress 0 and 45 s
    remaining, and leaves three new timers pending: the ticker that
    [intervalRef] points to, first due 100 ms later and every 100 ms from
    then on; the guard that [timeoutRef] points to, due 45 s later; and the
    lookup, which sleeps at least 2 and less than 8 seconds. *)
Theorem request_starts_three_timers (w : World) (r : Q) (rnd : list Q) :
  reachable w ->
  requestDisabled w = false ->
  (0 <= r)%Q -> (r < 1)%Q ->
  let w' := requestSteamCode (r :: rnd) w in
  currentCode (app w') = "" /\
  progress (app w') = 0%Q /\
  timeRemaining (app w') = 45 /\
  (exists hi, intervalRef (app w') = Some hi /\
     findTimer hi w' =
       Some (mkTimer hi (clock w + 100) (Some 100) (ProgressTick (clock w)))) /\
  (exists hg, timeoutRef (app w') = Some hg /\
     findTimer hg w' = Some (mkTimer hg (clock w + 45000) None TimeoutGuard)) /\
  (exists hl searchTime lookup,
     findTimer hl w' = Some lookup /\
     callback lookup = LookupDelay searchTime /\
     every lookup = None /\
     (2000 <= searchTime)%Q /\ (searchTime < 8000)%Q /\
     clock w + 2000 <= due lookup < clock w + 8000) /\
  List.length (timers w') = (List.length (timers w) + 3)%nat.
Proof.
  intros Hreach Hen H0 H1 w'. subst w'.
  destruct (requestDisabled_false w Hen) as [Hcan Hs].
  pose proof (reachable_tidy w Hreach) as Htidy.
  rewrite (requestSteamCode_accepted (r :: rnd) w Hcan Hs).
  destruct (simulateSearch_searchTime_range r rnd H0 H1) as [Hlo Hhi].
  cbv zeta in Hlo, Hhi.
  set (s := fst (Steam2FASimulator.simulateSearch_searchTime (r :: rnd))) in *.
  assert (Hfl : 2000 <= Math_floor s < 8000).
  { unfold Math_floor. split.
    - change 2000 with (Qfloor (inject_Z 2000)). apply Qfloor_resp_le. exact Hlo.
    - assert (Hlt : (inject_Z (Qfloor s) < inject_Z 8000)%Q)
        by (apply Qle_lt_trans with s; [apply Qfloor_le|exact Hhi]).
      rewrite <- Zlt_Qlt in Hlt. exact Hlt. }
  clearbody s. cbn [app currentCode progress timeRemaining intervalRef timeoutRef timers].
  split; [reflexivity|]. split; [reflexivity|]. split; [reflexivity|].
  split; [|split; [|split]].
  - eexists. split; [reflexivity|]. unfold findTimer. cbn [timers].
    rewrite find_app_split, (find_fresh w _ Htidy) by lia.
    cbn [find]. rewrite hasHandle_same by reflexivity. reflexivity.
  - eexists. split; [reflexivity|]. unfold findTimer. cbn [timers].
    rewrite find_app_split, (find_fresh w _ Htidy) by lia.
    cbn [find]. rewrite (hasHandle_other _ (nextHandle w)) by (cbn; lia).
    rewrite hasHandle_same by reflexivity. reflexivity.
  - exists (Pos.succ (Pos.succ (nextHandle w))), s. eexists. split.
    + unfold findTimer. cbn [timers].
      rewrite find_app_split, (find_fresh w _ Htidy) by lia.
      cbn [find]. rewrite (hasHandle_other _ (nextHandle w)) by (cbn; lia).
      rewrite (hasHandle_other _ (Pos.succ (nextHandle w))) by (cbn; lia).
      rewrite hasHandle_same by reflexivity. reflexivity.
    + cbn [due callback every]. split; [reflexivity|]. split; [reflexivity|].
      split; [exact Hlo|]. split; [exact Hhi|]. lia.
  - rewrite length_app. reflexivity.
Qed.

Lemma request_starts_three_timers_witness :
  let w' := requestSteamCode ((1 # 6)%Q :: []) freshWorld in
  currentCode (app w') = "" /\
  progress (app w') = 0%Q /\
  timeRemaining (app w') = 45 /\
  (exists hi, intervalRef (app w') = Some hi /\
     findTimer hi w' =
       Some (mkTimer hi (clock freshWorld + 100) (Some 100)
               (ProgressTick (clock freshWorld)))) /\
  (exists hg, timeoutRef (app w') = Some hg /\
     findTimer hg w' =
       Some (mkTimer hg (clock freshWorld + 45000) None TimeoutGuard)) /\
  (exists hl searchTime lookup,
     findTimer hl w' = Some lookup /\
     callback lookup = LookupDelay searchTime /\
     every lookup = None /\
     (2000 <= searchTime)%Q /\ (searchTime < 8000)%Q /\
     clock freshWorld + 2000 <= due lookup < clock freshWorld + 8000) /\
  List.length (timers w') = (List.length (timers freshWorld) + 3)%nat.
Proof.
  apply (request_starts_three_timers freshWorld (1 # 6) []).
  - apply (reach_install T0). reflexivity.
  - vm_compute. reflexivity.
  - discriminate.
  - reflexivity.
Defined.

(** No callback, and neither the reset nor the history button, touches the
    issuance time. *)
Lemma lastRequestTime_runCallback (cb : Callback) (rnd : list Q) (w : World) :
  lastRequestTime (app (runCallback cb rnd w)) = lastRequestTime (app w).
Proof.
  destruct cb as [|startTime| |s|]; cbn [runCallback]; try reflexivity.
  - unfold progressTick. cbv zeta.
    generalize (Z.max (45 - (Date_now w - startTime) / 1000) 0).
    generalize (Qmin (inject_Z (Date_now w - startTime) / 45000 * 100) 100).
    intros p remaining. destruct (remaining <=? 0); [|reflexivity].
    unfold clearInterval. cbn. autorewrite with frame. reflexivity.
  - unfold timeoutGuard, clearInterval. cbn. autorewrite with frame. reflexivity.
  - destruct (fst (Steam2FASimulator.simulateSearch_resume s rnd)).
    + rewrite lookupSettled_Ok. reflexivity.
    + rewrite lookupSettled_Throws. reflexivity.
Qed.

(** X6: the issuance time changes in two ways only. A click on the request
    button changes it if more than 60 000 ms have passed since the last
    issuance and no search is running; it then becomes the time of the
    click and a search starts. And loading the page again sets it back to
    0. Timers, resets and the history button never touch it, so within one
    page load two searches never start within 60 seconds of each other. *)
Theorem issuance_spacing (e : Event) (w w' : World) :
  step e w = Some w' ->
  lastRequestTime (app w') <> lastRequestTime (app w) ->
  (exists rnd,
     e = ClickRequest rnd /\
     60000 < clock w - lastRequestTime (app w) /\
     state (app w) <> SEARCHING /\
     lastRequestTime (app w') = clock w /\
     state (app w') = SEARCHING) \/
  (e = Reload /\ lastRequestTime (app w') = 0).
Proof.
  destruct e as [ms|rnd| | |h rnd|]; cbn [step].
  - destruct (0 <=? ms); [|discriminate].
    intros Heq. injection Heq as <-. intros Hne. now elim Hne.
  - intros Heq. injection Heq as <-. rewrite app_saveHistory. intros Hne.
    left. exists rnd.
    destruct (requestDisabled w) eqn:Hdis.
    + elim Hne. unfold requestSteamCode.
      destruct (canRequestCode w) eqn:Hcan; cbn [negb]; [|reflexivity].
      unfold requestDisabled in Hdis. rewrite Hcan, orb_false_r in Hdis.
      rewrite Hdis. reflexivity.
    + destruct (requestDisabled_false w Hdis) as [Hcan Hs].
      rewrite (requestSteamCode_accepted rnd w Hcan Hs). cbn.
      unfold canRequestCode, Date_now in Hcan. rewrite Z.gtb_ltb in Hcan.
      apply Z.ltb_lt in Hcan. repeat split; assumption.
  - intros Heq. injection Heq as <-. rewrite app_saveHistory.
    rewrite resetInterface_clears. autorewrite with frame.
    intros Hne. now elim Hne.
  - intros Heq. injection Heq as <-. rewrite app_saveHistory.
    intros Hne. now elim Hne.
  - unfold fire. destruct (findTimer h w) as [t|]; [|discriminate].
    destruct (due t <=? clock w); [|discriminate].
    destruct (every t) as [period|]; cbn; intros Heq; injection Heq as <-;
      autorewrite with frame; rewrite lastRequestTime_runCallback;
      autorewrite with frame; intros Hne; now elim Hne.
  - unfold mount, loadHistory. cbn [storage].
    destruct (storage w) as [[| |[items|]]|]; try discriminate;
      intros Heq; injection Heq as <-; intros _; right;
      (split; [reflexivity|rewrite app_saveHistory; reflexivity]).
Qed.

Lemma issuance_spacing_witness :
  (exists rnd,
     ClickRequest draw3000 = ClickRequest rnd /\
     60000 < clock freshWorld - lastRequestTime (app freshWorld) /\
     state (app freshWorld) <> SEARCHING /\
     lastRequestTime (app (saveHistory (requestSteamCode draw3000 freshWorld)))
     = clock freshWorld /\
     state (app (saveHistory (requestSteamCode draw3000 freshWorld))) = SEARCHING) \/
  (ClickRequest draw3000 = Reload /\
   lastRequestTime (app (saveHistory (requestSteamCode draw3000 freshWorld))) = 0).
Proof.
  apply (issuance_spacing (ClickRequest draw3000) freshWorld
           (saveHistory (requestSteamCode draw3000 freshWorld))).
  - reflexivity.
  - vm_compute. discriminate.
Defined.

(** ** The ticker *)

(** What a tick writes and what it leaves in the timer table. *)
Lemma progressTick_fields (startTime : Z) (w : World) :
  progress (app (progressTick startTime w))
  = Qmin (inject_Z (clock w - startTime) / 45000 * 100) 100 /\
  timeRemaining (app (progressTick startTime w))
  = Z.max (45 - (clock w - startTime) / 1000) 0 /\
  timers (progressTick startTime w)
  = if Z.max (45 - (clock w - startTime) / 1000) 0 <=? 0
    then (timers (clearTimer (intervalRef (app w)) w)
          ++ [mkTimer (nextHandle w) (clock w + 3000) None ClearNotification])%list
    else timers w.
Proof.
  unfold progressTick, Date_now. cbv zeta.
  generalize (Z.max (45 - (clock w - startTime) / 1000) 0).
  generalize (Qmin (inject_Z (clock w - startTime) / 45000 * 100) 100).
  intros p remaining. destruct (remaining <=? 0).
  - unfold clearInterval. cbn. autorewrite with frame.
    destruct (intervalRef (app w)); repeat split.
  - repeat split.
Qed.

Lemma percent_of_budget (elapsed : Z) :
  (inject_Z elapsed / 45000 * 100 == elapsed # 450)%Q.
Proof. unfold Qeq. cbn. lia. Qed.

(** X7: for a tick that runs at or after the start of its search, the
    progress it writes lies between 0 and 100 and the remaining time
    between 0 and 45; progress is 100 exactly when 45 000 ms or more have
    elapsed, which is exactly when the remaining time is 0. *)
Theorem progressTick_bounds (startTime : Z) (w : World) :
  startTime <= clock w ->
  let w' := progressTick startTime w in
  (0 <= progress (app w'))%Q /\
  (progress (app w') <= 100)%Q /\
  0 <= timeRemaining (app w') <= 45 /\
  ((progress (app w') == 100)%Q <-> 45000 <= clock w - startTime) /\
  (timeRemaining (app w') = 0 <-> 45000 <= clock w - startTime).
Proof.
  intros Hstart w'. subst w'.
  destruct (progressTick_fields startTime w) as (-> & -> & _).
  set (elapsed := clock w - startTime).
  assert (Hel : 0 <= elapsed) by (unfold elapsed; lia).
  assert (Hq : 0 <= elapsed / 1000) by (apply Z.div_pos; lia).
  pose proof (percent_of_budget elapsed) as Hpc.
  assert (Hle100 : (elapsed # 450 <= 100)%Q <-> elapsed <= 45000)
    by (unfold Qle; cbn; lia).
  assert (Hge100 : (100 <= elapsed # 450)%Q <-> 45000 <= elapsed)
    by (unfold Qle; cbn; lia).
  assert (H0 : (0 <= elapsed # 450)%Q) by (unfold Qle; cbn; lia).
  split; [|split; [|split; [|split]]].
  - apply Q.min_glb; [rewrite Hpc; exact H0|discriminate].
  - apply Q.le_min_r.
  - lia.
  - split.
    + intros Heq. apply Hge100. rewrite <- Hpc.
      apply Qle_trans with (Qmin (inject_Z elapsed / 45000 * 100) 100);
        [rewrite Heq; apply Qle_refl|apply Q.le_min_l].
    + intros Hge. apply Q.min_r. rewrite Hpc. apply Hge100. exact Hge.
  - split.
    + intros Hz.
      pose proof (Z.mul_div_le elapsed 1000 ltac:(lia)). lia.
    + intros Hge.
      assert (45 <= elapsed / 1000) by (apply Z.div_le_lower_bound; lia).
      lia.
Qed.

Lemma progressTick_bounds_witness :
  let w' := progressTick T0 busyWorld in
  (0 <= progress (app w'))%Q /\
  (progress (app w') <= 100)%Q /\
  0 <= timeRemaining (app w') <= 45 /\
  ((progress (app w') == 100)%Q <-> 45000 <= clock busyWorld - T0) /\
  (timeRemaining (app w') = 0 <-> 45000 <= clock busyWorld - T0).
Proof.
  apply (progressTick_bounds T0 busyWorld).
  vm_compute. discriminate.
Defined.

Lemma findTimer_reschedule (h : positive) (period : Z) (w : World) :
  findTimer h (reschedule h period w)
  = option_map
      (fun t => mkTimer (handle t) (clock w + period) (every t) (callback t))
      (findTimer h w).
Proof.
  unfold findTimer, reschedule. cbn [timers].
  induction (timers w) as [|a l IH]; cbn; [reflexivity|].
  destruct (hasHandle h a) eqn:Ha; cbn.
  - unfold hasHandle in *. cbn. rewrite Ha. reflexivity.
  - rewrite Ha. exact IH.
Qed.

Lemma findTimer_saveHistory (h : positive) (w : World) :
  findTimer h (saveHistory w) = findTimer h w.
Proof. unfold findTimer. rewrite timers_saveHistory. reflexivity. Qed.

Lemma findTimer_handle (h : positive) (w : World) (t : Timer) :
  findTimer h w = Some t -> handle t = h /\ In t (timers w).
Proof.
  unfold findTimer. intros Hfind. apply find_some in Hfind.
  destruct Hfind as [Hin Hh]. unfold hasHandle in Hh.
  apply Pos.eqb_eq in Hh. split; assumption.
Qed.

(** X8: when the ticker of the running search fires in a reachable world,
    then, as long as fewer than 45 000 ms have elapsed, the lifecycle state
    and the history stay as they are and the ticker is due again one period
    later; once 45 000 ms or more have elapsed, the state becomes [ERROR],
    the timeout notification is shown, one TIMEOUT entry with search time
    45000 is put in front of the history (at most nine older entries kept)
    and the ticker is gone from the timer table, so it writes no second
    entry. *)
Theorem ticker_fires
    (w : World) (h : positive) (t : Timer) (startTime period : Z) (rnd : list Q) :
  reachable w ->
  intervalRef (app w) = Some h ->
  findTimer h w = Some t ->
  callback t = ProgressTick startTime ->
  every t = Some period ->
  due t <= clock w ->
  exists w',
    step (Fire h rnd) w = Some w' /\
    (clock w - startTime < 45000 ->
     state (app w') = state (app w) /\
     history (app w') = history (app w) /\
     findTimer h w'
     = Some (mkTimer h (clock w + period) (Some period) (ProgressTick startTime))) /\
    (45000 <= clock w - startTime ->
     state (app w') = ERROR /\
     notification (app w') = "Timeout: Código não encontrado em 45 segundos" /\
     history (app w') =
       mkCodeRequest (toString (clock w)) "TIMEOUT" (clock w) error 45000
       :: firstn 9 (history (app w)) /\
     findTimer h w' = None).
Proof.
  intros Hreach Href Hfind Hcb Hevery Hdue.
  pose proof (reachable_tidy w Hreach) as Htidy.
  destruct (findTimer_handle h w t Hfind) as [Hh Hin].
  eexists. split.
  { unfold step, fire. rewrite Hfind.
    apply Z.leb_le in Hdue. rewrite Hdue, Hevery, Hcb. reflexivity. }
  cbn [runCallback].
  destruct (progressTick_fields startTime w) as (_ & _ & Htimers).
  split.
  - intros Hearly.
    destruct (progressTick_running startTime w Hearly) as (Hs & Hhist & Htm).
    rewrite app_saveHistory, app_reschedule.
    split; [exact Hs|]. split; [exact Hhist|].
    rewrite findTimer_saveHistory, findTimer_reschedule.
    unfold findTimer. rewrite Htm. fold (findTimer h w). rewrite Hfind. cbn.
    rewrite Hh, Hevery, Hcb.
    replace (clock (progressTick startTime w)) with (clock w); [reflexivity|].
    unfold progressTick, Date_now. cbv zeta.
    generalize (Z.max (45 - (clock w - startTime) / 1000) 0).
    generalize (Qmin (inject_Z (clock w - startTime) / 45000 * 100) 100).
    intros p remaining. destruct (remaining <=? 0); [|reflexivity].
    unfold clearInterval. cbn. autorewrite with frame. reflexivity.
  - intros Hlate.
    destruct (progressTick_timeout startTime w Hlate) as (Hs & Hhist).
    rewrite app_saveHistory, app_reschedule.
    split; [exact Hs|]. split; [|split; [exact Hhist|]].
    + unfold progressTick, Date_now. cbv zeta.
      assert (Hq : 45 <= (clock w - startTime) / 1000)
        by (apply Z.div_le_lower_bound; lia).
      replace (Z.max (45 - (clock w - startTime) / 1000) 0 <=? 0) with true
        by (symmetry; apply Z.leb_le; lia).
      reflexivity.
    + rewrite findTimer_saveHistory, findTimer_reschedule.
      unfold findTimer. rewrite Htimers.
      assert (Hq : 45 <= (clock w - startTime) / 1000)
        by (apply Z.div_le_lower_bound; lia).
      replace (Z.max (45 - (clock w - startTime) / 1000) 0 <=? 0) with true
        by (symmetry; apply Z.leb_le; lia).
      rewrite find_app_split, Href.
      fold (findTimer h (clearTimer (Some h) w)). rewrite findTimer_clearTimer.
      cbn [find]. rewrite (hasHandle_other h (nextHandle w)); [reflexivity|reflexivity|].
      destruct Htidy as (Hbelow & _). specialize (Hbelow t Hin). lia.
Qed.

Lemma ticker_fires_witness :
  exists w',
    step (Fire 1 []) busyWorld = Some w' /\
    (clock busyWorld - T0 < 45000 ->
     state (app w') = state (app busyWorld) /\
     history (app w') = history (app busyWorld) /\
     findTimer 1 w'
     = Some (mkTimer 1 (clock busyWorld + 100) (Some 100) (ProgressTick T0))) /\
    (45000 <= clock busyWorld - T0 ->
     state (app w') = ERROR /\
     notification (app w') = "Timeout: Código não encontrado em 45 segundos" /\
     history (app w') =
       mkCodeRequest (toString (clock busyWorld)) "TIMEOUT" (clock busyWorld)
         error 45000
       :: firstn 9 (history (app busyWorld)) /\
     findTimer 1 w' = None).
Proof.
  apply (ticker_fires busyWorld 1
           (mkTimer 1 (T0 + 100) (Some 100) (ProgressTick T0)) T0 100 []).
  - apply (reachable_run [ClickRequest draw3000; Elapse 1000] freshWorld).
    + apply (reach_install T0). reflexivity.
    + vm_compute. reflexivity.
  - vm_compute. reflexivity.
  - vm_compute. reflexivity.
  - reflexivity.
  - reflexivity.
  - vm_compute. discriminate.
Defined.

(** ** After the lookup has settled *)

Lemma nextHandle_clearTimer (r : option positive) (w : World) :
  nextHandle (clearTimer r w) = nextHandle w.
Proof. destruct r; reflexivity. Qed.

Lemma findTimer_clearTimer_other (h : positive) (r : option positive) (w : World) :
  r <> Some h -> findTimer h (clearTimer r w) = findTimer h w.
Proof.
  intros Hne. destruct r as [h'|]; [|reflexivity].
  unfold findTimer. cbn [clearTimer timers].
  induction (timers w) as [|a l IH]; cbn; [reflexivity|].
  unfold hasHandle in *.
  destruct (Pos.eqb_spec (handle a) h') as [Ha|Ha]; cbn.
  - destruct (Pos.eqb_spec (handle a) h) as [Hb|Hb]; [|exact IH].
    elim Hne. rewrite <- Ha, Hb. reflexivity.
  - destruct (Pos.eqb (handle a) h); [reflexivity|exact IH].
Qed.

(** The timer table a settled lookup leaves behind. *)
Lemma lookupSettled_timers (outcome : Result SearchResult) (w : World) :
  timers (lookupSettled outcome w) =
  (timers (clearTimer (timeoutRef (app w)) (clearTimer (intervalRef (app w)) w))
   ++ mkTimer (nextHandle w) (clock w + 3000) None ClearNotification
      :: match outcome with
         | Ok _ => [mkTimer (Pos.succ (nextHandle w)) (clock w + 30000) None
                      AutoSuccess]
         | Throws _ => []
         end)%list /\
  clock (lookupSettled outcome w) = clock w.
Proof.
  destruct outcome; unfold lookupSettled, clearInterval, clearTimeout; cbn;
    autorewrite with frame; rewrite ?nextHandle_clearTimer;
    rewrite <- ?app_assoc; split; reflexivity.
Qed.

Lemma tidy_ref_below (w : World) (h : positive) :
  tidy w ->
  intervalRef (app w) = Some h \/ timeoutRef (app w) = Some h ->
  (h < nextHandle w)%positive.
Proof.
  intros (_ & Hi & Hg & _) [Href|Href]; [rewrite Href in Hi|rewrite Href in Hg];
    assumption.
Qed.

Lemma findTimer_cleared_refs (w : World) (h : positive) :
  intervalRef (app w) = Some h \/ timeoutRef (app w) = Some h ->
  findTimer h (clearTimer (timeoutRef (app w)) (clearTimer (intervalRef (app w)) w))
  = None.
Proof.
  intros [Hi|Hg].
  - apply findTimer_clearTimer_None. rewrite Hi. apply findTimer_clearTimer.
  - rewrite Hg. apply findTimer_clearTimer.
Qed.

(** A pending, due lookup fires: the timer table afterwards. The timers
    under the two handles are gone; every other timer that was pending,
    the lookup apart, still is. *)
Lemma fire_lookup_timers
    (w : World) (hl : positive) (t : Timer) (s : Q) (rnd : list Q) :
  tidy w ->
  findTimer hl w = Some t ->
  callback t = LookupDelay s ->
  every t = None ->
  due t <= clock w ->
  let outcome := fst (Steam2FASimulator.simulateSearch_resume s rnd) in
  let w' := saveHistory (lookupSettled outcome (clearTimer (Some hl) w)) in
  step (Fire hl rnd) w = Some w' /\
  (forall h, intervalRef (app w) = Some h \/ timeoutRef (app w) = Some h ->
             findTimer h w' = None) /\
  (forall h t', findTimer h w = Some t' -> h <> hl ->
                intervalRef (app w) <> Some h -> timeoutRef (app w) <> Some h ->
                findTimer h w' = Some t').
Proof.
  intros Htidy Hfind Hcb Hevery Hdue outcome w'. subst w'.
  split.
  { unfold step, fire. rewrite Hfind.
    apply Z.leb_le in Hdue. rewrite Hdue, Hevery, Hcb. reflexivity. }
  set (w0 := clearTimer (Some hl) w).
  assert (Happ : app w0 = app w) by reflexivity.
  split.
  - intros h Href.
    rewrite findTimer_saveHistory. unfold findTimer.
    rewrite (proj1 (lookupSettled_timers outcome w0)), find_app_split.
    fold (findTimer h (clearTimer (timeoutRef (app w0))
                         (clearTimer (intervalRef (app w0)) w0))).
    rewrite findTimer_cleared_refs by (rewrite Happ; exact Href).
    pose proof (tidy_ref_below w h Htidy Href) as Hlt.
    change (nextHandle w0) with (nextHandle w).
    cbn [find]. rewrite (hasHandle_other h (nextHandle w)) by (cbn; lia).
    destruct outcome; cbn [find]; [|reflexivity].
    rewrite (hasHandle_other h (Pos.succ (nextHandle w))) by (cbn; lia).
    reflexivity.
  - intros h t' Hfind' Hne Hi Hg.
    rewrite findTimer_saveHistory. unfold findTimer.
    rewrite (proj1 (lookupSettled_timers outcome w0)), find_app_split.
    fold (findTimer h (clearTimer (timeoutRef (app w0))
                         (clearTimer (intervalRef (app w0)) w0))).
    rewrite Happ.
    rewrite !findTimer_clearTimer_other; try assumption.
    + unfold w0. rewrite findTimer_clearTimer_other; [rewrite Hfind'; reflexivity|].
      intros Heq. injection Heq as ->. now elim Hne.
Qed.

(** X9: a lookup that settles, either way, in a reachable world cancels
    exactly the two timers whose handles the refs hold at that time, which
    are the ticker and the guard of the request accepted last: both handles
    stay where they were, no timer is pending under either of them, and
    neither can fire any more. Every other timer that was pending stays
    pending. So the ticker and the guard of the lookup's own request are
    cancelled only if no request was accepted since; after a later request
    it is that request that loses its ticker and its guard, and the guard
    of the lookup's own request is still to come. *)
Theorem settled_lookup_cancels_timeouts
    (w : World) (hl : positive) (t : Timer) (s : Q) (rnd : list Q) :
  reachable w ->
  findTimer hl w = Some t ->
  callback t = LookupDelay s ->
  every t = None ->
  due t <= clock w ->
  exists w',
    step (Fire hl rnd) w = Some w' /\
    intervalRef (app w') = intervalRef (app w) /\
    timeoutRef (app w') = timeoutRef (app w) /\
    (forall h, intervalRef (app w) = Some h \/ timeoutRef (app w) = Some h ->
               findTimer h w' = None /\
               forall rnd', step (Fire h rnd') w' = None) /\
    (forall h t', findTimer h w = Some t' -> h <> hl ->
                  intervalRef (app w) <> Some h -> timeoutRef (app w) <> Some h ->
                  findTimer h w' = Some t').
Proof.
  intros Hreach Hfind Hcb Hevery Hdue.
  destruct (fire_lookup_timers w hl t s rnd (reachable_tidy w Hreach)
              Hfind Hcb Hevery Hdue) as (Hstep & Hgone & Hstay).
  eexists. split; [exact Hstep|].
  rewrite app_saveHistory.
  assert (Hrefs : forall outcome w0, app w0 = app w ->
            intervalRef (app (lookupSettled outcome w0)) = intervalRef (app w) /\
            timeoutRef (app (lookupSettled outcome w0)) = timeoutRef (app w)).
  { intros outcome w0 <-.
    destruct outcome; [rewrite lookupSettled_Ok|rewrite lookupSettled_Throws];
      split; reflexivity. }
  split; [apply Hrefs; reflexivity|]. split; [apply Hrefs; reflexivity|].
  split; [|exact Hstay].
  intros h Href. split; [exact (Hgone h Href)|].
  intros rnd'. unfold step, fire. rewrite (Hgone h Href). reflexivity.
Qed.

Lemma reachable_lookupDueWorld : reachable lookupDueWorld.
Proof.
  apply (reachable_run [ClickRequest draw3000; Elapse 3000] freshWorld).
  - exact reachable_freshWorld.
  - by_running.
Qed.

Lemma settled_lookup_cancels_timeouts_witness :
  (intervalRef (app secondSearchWorld) = Some 5%positive /\
   timeoutRef (app secondSearchWorld) = Some 6%positive /\
   findTimer 2 secondSearchWorld
   = Some (mkTimer 2 (T0 + 45000) None TimeoutGuard)) /\
  exists w',
    step (Fire 3 drawsAB3K9) secondSearchWorld = Some w' /\
    intervalRef (app w') = intervalRef (app secondSearchWorld) /\
    timeoutRef (app w') = timeoutRef (app secondSearchWorld) /\
    (forall h, intervalRef (app secondSearchWorld) = Some h \/
               timeoutRef (app secondSearchWorld) = Some h ->
               findTimer h w' = None /\
               forall rnd', step (Fire h rnd') w' = None) /\
    (forall h t', findTimer h secondSearchWorld = Some t' -> h <> 3%positive ->
                  intervalRef (app secondSearchWorld) <> Some h ->
                  timeoutRef (app secondSearchWorld) <> Some h ->
                  findTimer h w' = Some t').
Proof.
  split; [split; [by_running|split; by_running]|].
  apply (settled_lookup_cancels_timeouts secondSearchWorld 3
           (mkTimer 3 (T0 + 3000) None (LookupDelay (18000 # 6)))
           (18000 # 6) drawsAB3K9).
  - apply (reachable_run (frozenRun ++ [Fire 1 []; ClickRequest draw3000]) freshWorld).
    + apply (reach_install T0). reflexivity.
    + vm_compute. reflexivity.
  - vm_compute. reflexivity.
  - reflexivity.
  - reflexivity.
  - vm_compute. discriminate.
Defined.

(** ** The budget runs out with the lookup still pending *)

Lemma reachableInOrder_reachable (w : World) : reachableInOrder w -> reachable w.
Proof.
  induction 1 as [now w Hmount|e w w' _ IH _ Hstep].
  - exact (reach_install now w Hmount).
  - exact (reach_step e w w' IH Hstep).
Qed.

Lemma reachableInOrder_run (es : list Event) (w w' : World) :
  reachableInOrder w -> runInOrder es w = Some w' -> reachableInOrder w'.
Proof.
  revert w. induction es as [|e es IH]; intros w Hw Hrun; cbn in Hrun.
  - injection Hrun as <-. exact Hw.
  - destruct (inOrder e w) eqn:Hord; [|discriminate].
    destruct (step e w) as [w1|] eqn:Hstep; [|discriminate].
    apply (IH w1); [|exact Hrun]. exact (order_step e w w1 Hw Hord Hstep).
Qed.

Lemma reachableInOrder_overdueWorld : reachableInOrder overdueWorld.
Proof.
  apply (reachableInOrder_run overdueRun freshWorld).
  - apply (order_install T0). reflexivity.
  - by_running.
Qed.

(** C6, counterexample: on the thawed page of [overdueRun], 50 s after the
    request, the lookup is the timer that was due first. It resolves: the
    component shows the code, the ticker and the guard are cancelled, and
    when the last two timers have run the component is in [SUCCESS] with
    the success entry as its only entry. *)
Lemma budget_timeout_logged_counterexample : ~ budget_timeout_logged.
Proof.
  intros H.
  destruct (H overdueWorld
              (orElse (runInOrder lookupFirstRun overdueWorld) freshWorld)
              3%positive
              (mkTimer 3 (T0 + 3031) None (LookupDelay (194000 # 64)))
              (194000 # 64)%Q lookupFirstRun) as [Hstate _].
  - exact reachableInOrder_overdueWorld.
  - by_running.
  - vm_compute. discriminate.
  - by_running.
  - reflexivity.
  - repeat constructor.
  - by_running.
  - by_running.
  - vm_compute in Hstate. discriminate Hstate.
Qed.

(** The run in full: no TIMEOUT entry is written at any point, and no
    timer is left that could write one. *)
Example lookup_first_no_timeout_entry :
  option_map (fun w => (state (app w), currentCode (app w),
                        map code (history (app w)),
                        map searchTime (history (app w)), timers w))
    (runInOrder (overdueRun ++ lookupFirstRun) freshWorld)
  = Some (SUCCESS, "AB3K9", ["AB3K9"], [3031], []).
Proof. by_running. Qed.

Lemma findTimer_reschedule_other (h h' : positive) (period : Z) (w : World) :
  h' <> h -> findTimer h' (reschedule h period w) = findTimer h' w.
Proof.
  intros Hne. unfold findTimer, reschedule. cbn [timers].
  induction (timers w) as [|a l IH]; cbn; [reflexivity|].
  unfold hasHandle in *.
  destruct (Pos.eqb_spec (handle a) h) as [Ha|Ha]; cbn.
  - destruct (Pos.eqb_spec (handle a) h') as [Hb|Hb]; [|exact IH].
    elim Hne. rewrite <- Ha, Hb. reflexivity.
  - destruct (Pos.eqb (handle a) h'); [reflexivity|exact IH].
Qed.

(** A lookup that resolves carries a generated code, which is not the
    text TIMEOUT. *)
Lemma simulateSearch_resume_code (s : Q) (rnd : list Q) (result : SearchResult) :
  fst (Steam2FASimulator.simulateSearch_resume s rnd) = Ok result ->
  result_code result <> "TIMEOUT".
Proof.
  unfold Steam2FASimulator.simulateSearch_resume, bind.
  destruct (Math_random rnd) as [r rnd'].
  destruct (Qlt_bool r Steam2FASimulator.literal_0_95); [|discriminate].
  pose proof (generateRandomCode_loop_short 5 "" rnd') as Hlen.
  unfold Steam2FASimulator.generateRandomCode.
  destruct (Steam2FASimulator.generateRandomCode_loop 5 "" rnd') as [c rest].
  cbn in *. intros H. injection H as <-. cbn. intros ->. cbn in Hlen. lia.
Qed.

(** C6, as amended: take a reachable world in which the ticker that
    [intervalRef] holds and a lookup are both pending and due, 45 000 ms or
    more after the ticker's search started. If the ticker runs, the
    component goes to [ERROR], the timeout notification is shown, one entry
    TIMEOUT with status error and search time exactly 45000 is put in front
    of the history, and the ticker is gone (it writes no second entry); the
    lookup is still pending. If the lookup runs, the request ends as the
    lookup decides: [FOUND] with the code, or [ERROR] with the entry ERROR;
    the entry put in front of the history is not a TIMEOUT entry, and the
    ticker and the guard are cancelled, so none follows. If the guard that
    [timeoutRef] holds runs, the component goes to [ERROR], the ticker is
    cancelled and the history stays as it was. *)
Theorem budget_enforced_by_ticker
    (w : World) (hi hl : positive) (ticker lookup : Timer)
    (startTime period : Z) (s : Q) (rnd : list Q) :
  reachable w ->
  intervalRef (app w) = Some hi ->
  findTimer hi w = Some ticker ->
  callback ticker = ProgressTick startTime ->
  every ticker = Some period ->
  due ticker <= clock w ->
  findTimer hl w = Some lookup ->
  callback lookup = LookupDelay s ->
  every lookup = None ->
  due lookup <= clock w ->
  45000 <= clock w - startTime ->
  (exists w1,
     step (Fire hi []) w = Some w1 /\
     state (app w1) = ERROR /\
     notification (app w1) = "Timeout: Código não encontrado em 45 segundos" /\
     history (app w1) =
       mkCodeRequest (toString (clock w)) "TIMEOUT" (clock w) error 45000
       :: firstn 9 (history (app w)) /\
     findTimer hi w1 = None /\
     findTimer hl w1 = Some lookup) /\
  (exists w2 newest,
     step (Fire hl rnd) w = Some w2 /\
     history (app w2) = newest :: firstn 9 (history (app w)) /\
     code newest <> "TIMEOUT" /\
     findTimer hi w2 = None /\
     (forall hg, timeoutRef (app w) = Some hg -> findTimer hg w2 = None) /\
     match fst (Steam2FASimulator.simulateSearch_resume s rnd) with
     | Ok result =>
         state (app w2) = FOUND /\
         currentCode (app w2) = result_code result /\
         newest = mkCodeRequest (toString (clock w)) (result_code result)
                    (clock w) success (result_searchTime result)
     | Throws _ =>
         state (app w2) = ERROR /\
         newest = mkCodeRequest (toString (clock w)) "ERROR" (clock w) error 0
     end) /\
  (forall hg guard,
     timeoutRef (app w) = Some hg ->
     findTimer hg w = Some guard ->
     every guard = None ->
     due guard <= clock w ->
     exists w3,
       step (Fire hg []) w = Some w3 /\
       state (app w3) = ERROR /\
       history (app w3) = history (app w) /\
       findTimer hi w3 = None).
Proof.
  intros Hreach Href Hfind Hcb Hevery Hdue Hfindl Hcbl Heveryl Hduel Hlate.
  pose proof (reachable_tidy w Hreach) as Htidy.
  destruct (findTimer_handle hi w ticker Hfind) as [Hh Hin].
  assert (Hne : hl <> hi).
  { intros ->. rewrite Hfind in Hfindl. injection Hfindl as <-.
    rewrite Hcb in Hcbl. discriminate Hcbl. }
  assert (Hq : 45 <= (clock w - startTime) / 1000)
    by (apply Z.div_le_lower_bound; lia).
  assert (Hrem : (Z.max (45 - (clock w - startTime) / 1000) 0 <=? 0) = true)
    by (apply Z.leb_le; lia).
  split; [|split].
  - eexists. split.
    { unfold step, fire. rewrite Hfind.
      apply Z.leb_le in Hdue. rewrite Hdue, Hevery, Hcb. reflexivity. }
    cbn [runCallback option_map].
    destruct (progressTick_fields startTime w) as (_ & _ & Htimers).
    rewrite Hrem in Htimers.
    destruct (progressTick_timeout startTime w Hlate) as (Hs & Hhist).
    rewrite app_saveHistory, app_reschedule.
    split; [exact Hs|]. split; [|split; [exact Hhist|split]].
    + unfold progressTick, Date_now. cbv zeta. rewrite Hrem. reflexivity.
    + rewrite findTimer_saveHistory, findTimer_reschedule.
      unfold findTimer. rewrite Htimers, find_app_split, Href.
      fold (findTimer hi (clearTimer (Some hi) w)). rewrite findTimer_clearTimer.
      cbn [find].
      rewrite (hasHandle_other hi (nextHandle w)); [reflexivity|reflexivity|].
      destruct Htidy as (Hbelow & _). specialize (Hbelow ticker Hin). lia.
    + rewrite findTimer_saveHistory, findTimer_reschedule_other by exact Hne.
      unfold findTimer. rewrite Htimers, find_app_split, Href.
      fold (findTimer hl (clearTimer (Some hi) w)).
      rewrite findTimer_clearTimer_other
        by (intros Heq; injection Heq as ->; now elim Hne).
      rewrite Hfindl. reflexivity.
  - destruct (fire_lookup_timers w hl lookup s rnd Htidy Hfindl Hcbl Heveryl Hduel)
      as (Hstep & Hgone & _).
    pose proof (simulateSearch_resume_code s rnd) as Hcode.
    destruct (fst (Steam2FASimulator.simulateSearch_resume s rnd))
      as [result|ex] eqn:Hout.
    + eexists. eexists. split; [exact Hstep|].
      rewrite app_saveHistory, lookupSettled_Ok.
      cbn [history state currentCode]. unfold appendHistory.
      split; [reflexivity|]. split; [exact (Hcode result eq_refl)|].
      split; [apply Hgone; left; exact Href|].
      split; [intros hg Hg; apply Hgone; right; exact Hg|].
      split; [reflexivity|]. split; reflexivity.
    + eexists. eexists. split; [exact Hstep|].
      rewrite app_saveHistory, lookupSettled_Throws.
      cbn [history state]. unfold appendHistory.
      split; [reflexivity|]. split; [discriminate|].
      split; [apply Hgone; left; exact Href|].
      split; [intros hg Hg; apply Hgone; right; exact Hg|].
      split; reflexivity.
  - intros hg guard Hg Hfindg Heveryg Hdueg.
    destruct (findTimer_handle hg w guard Hfindg) as [Hhg Hing].
    assert (Hcbg : callback guard = TimeoutGuard).
    { destruct Htidy as (_ & _ & _ & _ & Hkind). apply (Hkind guard Hing).
      rewrite Hhg. exact Hg. }
    assert (Hneg : hg <> hi).
    { intros ->. rewrite Hfind in Hfindg. injection Hfindg as <-.
      rewrite Hcb in Hcbg. discriminate Hcbg. }
    eexists. split.
    { unfold step, fire. rewrite Hfindg.
      apply Z.leb_le in Hdueg. rewrite Hdueg, Heveryg, Hcbg. reflexivity. }
    cbn [runCallback option_map].
    rewrite app_saveHistory, findTimer_saveHistory.
    destruct (timeoutGuard_no_entry (clearTimer (Some hg) w)) as (Hs & Hhist & Hclear).
    split; [exact Hs|]. split; [exact Hhist|].
    apply Hclear. exact Href.
Qed.

Lemma budget_enforced_by_ticker_witness :
  let w := overdueWorld in
  let rnd := drawsAB3K9 in
  let s := (194000 # 64)%Q in
  (exists w1,
     step (Fire 1 []) w = Some w1 /\
     state (app w1) = ERROR /\
     notification (app w1) = "Timeout: Código não encontrado em 45 segundos" /\
     history (app w1) =
       mkCodeRequest (toString (clock w)) "TIMEOUT" (clock w) error 45000
       :: firstn 9 (history (app w)) /\
     findTimer 1 w1 = None /\
     findTimer 3 w1 = Some (mkTimer 3 (T0 + 3031) None (LookupDelay s))) /\
  (exists w2 newest,
     step (Fire 3 rnd) w = Some w2 /\
     history (app w2) = newest :: firstn 9 (history (app w)) /\
     code newest <> "TIMEOUT" /\
     findTimer 1 w2 = None /\
     (forall hg, timeoutRef (app w) = Some hg -> findTimer hg w2 = None) /\
     match fst (Steam2FASimulator.simulateSearch_resume s rnd) with
     | Ok result =>
         state (app w2) = FOUND /\
         currentCode (app w2) = result_code result /\
         newest = mkCodeRequest (toString (clock w)) (result_code result)
                    (clock w) success (result_searchTime result)
     | Throws _ =>
         state (app w2) = ERROR /\
         newest = mkCodeRequest (toString (clock w)) "ERROR" (clock w) error 0
     end) /\
  (forall hg guard,
     timeoutRef (app w) = Some hg ->
     findTimer hg w = Some guard ->
     every guard = None ->
     due guard <= clock w ->
     exists w3,
       step (Fire hg []) w = Some w3 /\
       state (app w3) = ERROR /\
       history (app w3) = history (app w) /\
       findTimer 1 w3 = None).
Proof.
  apply (budget_enforced_by_ticker overdueWorld 1 3
           (mkTimer 1 (T0 + 3100) (Some 100) (ProgressTick T0))
           (mkTimer 3 (T0 + 3031) None (LookupDelay (194000 # 64)))
           T0 100 (194000 # 64) drawsAB3K9).
  - apply (reachable_run overdueRun freshWorld).
    + apply (reach_install T0). reflexivity.
    + vm_compute. reflexivity.
  - vm_compute. reflexivity.
  - vm_compute. reflexivity.
  - reflexivity.
  - reflexivity.
  - vm_compute. discriminate.
  - vm_compute. reflexivity.
  - reflexivity.
  - reflexivity.
  - vm_compute. discriminate.
  - vm_compute. discriminate.
Defined.

(** A pending move to [SUCCESS], some time later. *)
Lemma fire_autoSuccess (v : World) (ha : positive) (dueTime d : Z) :
  findTimer ha v = Some (mkTimer ha dueTime None AutoSuccess) ->
  0 <= d ->
  (clock v + d < dueTime -> run [Elapse d; Fire ha []] v = None) /\
  (dueTime <= clock v + d ->
   exists w2,
     run [Elapse d; Fire ha []] v = Some w2 /\
     state (app w2) = SUCCESS /\
     currentCode (app w2) = currentCode (app v) /\
     history (app w2) = history (app v) /\
     findTimer ha w2 = None).
Proof.
  intros Hfind Hd.
  assert (Hel : (0 <=? d) = true) by (apply Z.leb_le; exact Hd).
  assert (Hlater : findTimer ha
                     (mkWorld (app v) (timers v) (nextHandle v) (clock v + d) (storage v))
                   = Some (mkTimer ha dueTime None AutoSuccess)) by exact Hfind.
  split.
  - intros Hearly. cbn [run step]. rewrite Hel. unfold fire. rewrite Hlater.
    cbn [due clock].
    replace (dueTime <=? clock v + d) with false by (symmetry; apply Z.leb_gt; lia).
    reflexivity.
  - intros Hlate. eexists. split.
    { cbn [run step]. rewrite Hel. unfold fire. rewrite Hlater.
      cbn [due clock every callback].
      replace (dueTime <=? clock v + d) with true by (symmetry; apply Z.leb_le; lia).
      reflexivity. }
    rewrite app_saveHistory, findTimer_saveHistory. cbn [runCallback].
    split; [reflexivity|]. split; [reflexivity|]. split; [reflexivity|].
    exact (findTimer_clearTimer ha
             (mkWorld (app v) (timers v) (nextHandle v) (clock v + d) (storage v))).
Qed.

(** X10: when the lookup of a search resolves in a reachable world, the
    move to [SUCCESS] is scheduled for exactly 30 000 ms later. With
    nothing else happening in between, its timer cannot fire before that;
    when it fires it sets [SUCCESS], leaves the code and the history as the
    lookup wrote them, and is gone. *)
Theorem found_expires_after_30s
    (w : World) (hl : positive) (t : Timer) (s : Q) (rnd : list Q)
    (result : SearchResult) (d : Z) :
  reachable w ->
  findTimer hl w = Some t ->
  callback t = LookupDelay s ->
  every t = None ->
  due t <= clock w ->
  fst (Steam2FASimulator.simulateSearch_resume s rnd) = Ok result ->
  0 <= d ->
  exists w1 ha,
    step (Fire hl rnd) w = Some w1 /\
    findTimer ha w1 = Some (mkTimer ha (clock w + 30000) None AutoSuccess) /\
    (d < 30000 -> run [Elapse d; Fire ha []] w1 = None) /\
    (30000 <= d ->
     exists w2,
       run [Elapse d; Fire ha []] w1 = Some w2 /\
       state (app w2) = SUCCESS /\
       currentCode (app w2) = result_code result /\
       history (app w2) = history (app w1) /\
       findTimer ha w2 = None).
Proof.
  intros Hreach Hfind Hcb Hevery Hdue Hres Hd.
  pose proof (reachable_tidy w Hreach) as Htidy.
  assert (Hstep : step (Fire hl rnd) w
                  = Some (saveHistory (lookupSettled (Ok result) (clearTimer (Some hl) w)))).
  { unfold step, fire. rewrite Hfind.
    apply Z.leb_le in Hdue. rewrite Hdue, Hevery, Hcb.
    cbn [runCallback option_map]. rewrite Hres. reflexivity. }
  assert (Htidy0 : tidy (clearTimer (Some hl) w)) by tidy_tac.
  assert (Hauto : findTimer (Pos.succ (nextHandle w))
                    (saveHistory (lookupSettled (Ok result) (clearTimer (Some hl) w)))
                  = Some (mkTimer (Pos.succ (nextHandle w)) (clock w + 30000) None
                            AutoSuccess)).
  { rewrite findTimer_saveHistory. unfold findTimer.
    rewrite (proj1 (lookupSettled_timers (Ok result) _)), find_app_split.
    rewrite (find_fresh _ (Pos.succ (nextHandle w)));
      [|tidy_tac|rewrite !nextHandle_clearTimer; lia].
    rewrite nextHandle_clearTimer, clock_clearTimer.
    cbn [find]. rewrite (hasHandle_other _ (nextHandle w)) by (cbn; lia).
    rewrite hasHandle_same by reflexivity. reflexivity. }
  assert (Hclock : clock (saveHistory (lookupSettled (Ok result) (clearTimer (Some hl) w)))
                   = clock w).
  { rewrite clock_saveHistory, (proj2 (lookupSettled_timers (Ok result) _)).
    apply clock_clearTimer. }
  assert (Hcode : currentCode (app (saveHistory (lookupSettled (Ok result)
                                                   (clearTimer (Some hl) w))))
                  = result_code result)
    by (rewrite app_saveHistory, lookupSettled_Ok; reflexivity).
  revert Hstep Hauto Hclock Hcode.
  generalize (saveHistory (lookupSettled (Ok result) (clearTimer (Some hl) w))).
  intros w1 Hstep Hauto Hclock Hcode.
  exists w1, (Pos.succ (nextHandle w)).
  split; [exact Hstep|]. split; [exact Hauto|].
  destruct (fire_autoSuccess w1 _ _ d Hauto Hd) as [Hearly Hlate].
  split.
  - intros Hlt. apply Hearly. lia.
  - intros Hge. destruct Hlate as (w2 & Hrun & Hs & Hc & Hh & Hn); [lia|].
    exists w2. rewrite <- Hcode, <- Hc. auto.
Qed.

Lemma found_expires_after_30s_witness :
  exists w1 ha,
    step (Fire 3 drawsAB3K9) lookupDueWorld = Some w1 /\
    findTimer ha w1
    = Some (mkTimer ha (clock lookupDueWorld + 30000) None AutoSuccess) /\
    (30000 < 30000 -> run [Elapse 30000; Fire ha []] w1 = None) /\
    (30000 <= 30000 ->
     exists w2,
       run [Elapse 30000; Fire ha []] w1 = Some w2 /\
       state (app w2) = SUCCESS /\
       currentCode (app w2) = result_code (mkSearchResult "AB3K9" 3000) /\
       history (app w2) = history (app w1) /\
       findTimer ha w2 = None).
Proof.
  apply (found_expires_after_30s lookupDueWorld 3
           (mkTimer 3 (T0 + 3000) None (LookupDelay (18000 # 6)))
           (18000 # 6) drawsAB3K9 (mkSearchResult "AB3K9" 3000) 30000).
  - apply (reachable_run [ClickRequest draw3000; Elapse 3000] freshWorld).
    + apply (reach_install T0). reflexivity.
    + vm_compute. reflexivity.
  - vm_compute. reflexivity.
  - reflexivity.
  - reflexivity.
  - vm_compute. discriminate.
  - vm_compute. reflexivity.
  - vm_compute. discriminate.
Defined.

(** ** A reset during a search *)

(** X11: in a reachable world a reset removes nothing but the ticker and
    the guard: a pending lookup stays pending. When it then settles, the
    component leaves [IDLE] for [FOUND] (with the code) or [ERROR], and the
    outcome is put in front of the history, as if there had been no
    reset. *)
Theorem reset_keeps_lookup
    (w : World) (hl : positive) (t : Timer) (s : Q) (rnd : list Q) :
  reachable w ->
  findTimer hl w = Some t ->
  callback t = LookupDelay s ->
  due t <= clock w ->
  state (app (resetInterface w)) = IDLE /\
  findTimer hl (resetInterface w) = Some t /\
  exists w',
    run [ClickReset; Fire hl rnd] w = Some w' /\
    match fst (Steam2FASimulator.simulateSearch_resume s rnd) with
    | Ok result =>
        state (app w') = FOUND /\
        currentCode (app w') = result_code result /\
        history (app w') =
          mkCodeRequest (toString (clock w)) (result_code result) (clock w)
            success (result_searchTime result)
          :: firstn 9 (history (app w))
    | Throws _ =>
        state (app w') = ERROR /\
        history (app w') =
          mkCodeRequest (toString (clock w)) "ERROR" (clock w) error 0
          :: firstn 9 (history (app w))
    end.
Proof.
  intros Hreach Hfind Hcb Hdue.
  destruct (reachable_tidy w Hreach) as (_ & _ & _ & Hki & Hkg).
  destruct (findTimer_handle hl w t Hfind) as [Hh Hin].
  assert (Hkeep : findTimer hl (resetInterface w) = Some t).
  { rewrite resetInterface_clears.
    rewrite !findTimer_clearTimer_other.
    - exact Hfind.
    - intros Href. destruct (Hki t Hin) as [st Hst]; [rewrite Hh; exact Href|].
      rewrite Hcb in Hst. discriminate Hst.
    - autorewrite with frame. cbn. intros Href.
      rewrite (Hkg t Hin) in Hcb; [discriminate Hcb|rewrite Hh; exact Href]. }
  assert (Happ : app (resetInterface w)
                 = app (setTimeRemaining 0
                          (setProgress 0 (setCurrentCode "" (setState IDLE w)))))
    by (rewrite resetInterface_clears; autorewrite with frame; reflexivity).
  assert (Hclock : clock (resetInterface w) = clock w)
    by (rewrite resetInterface_clears; autorewrite with frame; reflexivity).
  split; [rewrite Happ; reflexivity|]. split; [exact Hkeep|].
  destruct (fire_lookup (saveHistory (resetInterface w)) hl t s rnd)
    as (w0 & w1 & Hstep & Happ0 & Hclock0 & Happ1).
  { rewrite findTimer_saveHistory. exact Hkeep. }
  { exact Hcb. }
  { rewrite clock_saveHistory, Hclock. exact Hdue. }
  exists w1. split.
  { cbn [run]. change (step ClickReset w) with (Some (saveHistory (resetInterface w))).
    cbv iota. rewrite Hstep. reflexivity. }
  rewrite app_saveHistory in Happ0. rewrite clock_saveHistory, Hclock in Hclock0.
  destruct (fst (Steam2FASimulator.simulateSearch_resume s rnd)) as [result|e].
  - rewrite lookupSettled_Ok, Happ0, Hclock0, Happ in Happ1. rewrite Happ1.
    repeat split.
  - rewrite lookupSettled_Throws, Happ0, Hclock0, Happ in Happ1. rewrite Happ1.
    repeat split.
Qed.

Lemma reset_keeps_lookup_witness :
  state (app (resetInterface lookupDueWorld)) = IDLE /\
  findTimer 3 (resetInterface lookupDueWorld)
  = Some (mkTimer 3 (T0 + 3000) None (LookupDelay (18000 # 6))) /\
  exists w',
    run [ClickReset; Fire 3 drawsAB3K9] lookupDueWorld = Some w' /\
    match fst (Steam2FASimulator.simulateSearch_resume (18000 # 6) drawsAB3K9) with
    | Ok result =>
        state (app w') = FOUND /\
        currentCode (app w') = result_code result /\
        history (app w') =
          mkCodeRequest (toString (clock lookupDueWorld)) (result_code result)
            (clock lookupDueWorld) success (result_searchTime result)
          :: firstn 9 (history (app lookupDueWorld))
    | Throws _ =>
        state (app w') = ERROR /\
        history (app w') =
          mkCodeRequest (toString (clock lookupDueWorld)) "ERROR"
            (clock lookupDueWorld) error 0
          :: firstn 9 (history (app lookupDueWorld))
    end.
Proof.
  apply (reset_keeps_lookup lookupDueWorld 3
           (mkTimer 3 (T0 + 3000) None (LookupDelay (18000 # 6)))
           (18000 # 6) drawsAB3K9).
  - apply (reachable_run [ClickRequest draw3000; Elapse 3000] freshWorld).
    + apply (reach_install T0). reflexivity.
    + vm_compute. reflexivity.
  - vm_compute. reflexivity.
  - reflexivity.
  - vm_compute. discriminate.
Defined.

(** ** Notifications *)

(** X12: a notification goes away when any expiry fires, not only its
    own. In a reachable world, show one message, show a second one [d]
    milliseconds later (0 <= d <= 3000), and let the first expiry fire when
    it is due, 3000 ms after the first message: the second message is on
    display until then, is cleared [3000 - d] ms after it was shown, and
    its own expiry is still pending. *)
Theorem stale_expiry_clears_notification
    (w : World) (first second : string) (d : Z) :
  reachable w ->
  0 <= d <= 3000 ->
  let w1 := showNotification first w in
  let w2 := showNotification second (later d w1) in
  let w3 := later (3000 - d) w2 in
  notification (app w1) = first /\
  notification (app w3) = second /\
  exists w4,
    fire (nextHandle w) [] w3 = Some w4 /\
    notification (app w4) = "" /\
    findTimer (Pos.succ (nextHandle w)) w4
    = Some (mkTimer (Pos.succ (nextHandle w)) (clock w + d + 3000) None
              ClearNotification).
Proof.
  intros Hreach Hd. cbv zeta.
  pose proof (reachable_tidy w Hreach) as Htidy.
  split; [reflexivity|]. split; [reflexivity|].
  assert (Hfind : findTimer (nextHandle w)
                    (later (3000 - d) (showNotification second
                                         (later d (showNotification first w))))
                  = Some (mkTimer (nextHandle w) (clock w + 3000) None ClearNotification)).
  { unfold findTimer. cbn [later showNotification setNotification onApp setTimeout
                           addTimer snd timers nextHandle clock app].
    rewrite <- app_assoc, find_app_split, (find_fresh w _ Htidy) by lia.
    cbn [List.app find]. rewrite hasHandle_same by reflexivity. reflexivity. }
  eexists. split.
  { unfold fire. rewrite Hfind. cbn [due every callback].
    replace (clock w + 3000 <=? _) with true; [reflexivity|].
    symmetry. apply Z.leb_le.
    change (clock (later (3000 - d) (showNotification second
                                       (later d (showNotification first w)))))
      with (clock w + d + (3000 - d)).
    lia. }
  split; [reflexivity|].
  unfold findTimer. cbn [runCallback setNotification onApp timers clearTimer later
                         showNotification setTimeout addTimer snd nextHandle clock app].
  rewrite <- app_assoc, filter_app, find_app_split.
  assert (Hold : find (hasHandle (Pos.succ (nextHandle w)))
                   (filter (fun t => negb (hasHandle (nextHandle w) t)) (timers w))
                 = None).
  { destruct (find _ _) as [t|] eqn:Hf; [|reflexivity].
    apply find_some in Hf. destruct Hf as [Hin Hh].
    apply filter_In in Hin. destruct Hin as [Hin _].
    destruct Htidy as (Hbelow & _). specialize (Hbelow t Hin).
    unfold hasHandle in Hh. apply Pos.eqb_eq in Hh. lia. }
  rewrite Hold. cbn [List.app filter].
  rewrite (hasHandle_same (nextHandle w)) by reflexivity. cbn [negb].
  rewrite (hasHandle_other (nextHandle w) (Pos.succ (nextHandle w)))
    by (cbn; lia).
  cbn [negb find]. rewrite hasHandle_same by reflexivity. reflexivity.
Qed.

Lemma stale_expiry_clears_notification_witness :
  let w1 := showNotification "one" freshWorld in
  let w2 := showNotification "two" (later 2000 w1) in
  let w3 := later (3000 - 2000) w2 in
  notification (app w1) = "one" /\
  notification (app w3) = "two" /\
  exists w4,
    fire (nextHandle freshWorld) [] w3 = Some w4 /\
    notification (app w4) = "" /\
    findTimer (Pos.succ (nextHandle freshWorld)) w4
    = Some (mkTimer (Pos.succ (nextHandle freshWorld))
              (clock freshWorld + 2000 + 3000) None ClearNotification).
Proof.
  apply (stale_expiry_clears_notification freshWorld "one" "two" 2000).
  - apply (reach_install T0). reflexivity.
  - lia.
Defined.

(** ** What is on the screen *)

(** X13: the status text tells the five states apart; the status colour
    does not tell [IDLE] from [SUCCESS], and tells every other pair
    apart. *)
Theorem status_text_identifies_state (a b : App) :
  (getStatusText a = getStatusText b <-> state a = state b) /\
  (getStatusColor a = getStatusColor b <->
   state a = state b \/
   ((state a = IDLE \/ state a = SUCCESS) /\
    (state b = IDLE \/ state b = SUCCESS))).
Proof.
  unfold getStatusText, getStatusColor.
  destruct (state a), (state b); split; split; intros H;
    try reflexivity; try discriminate H;
    try (left; reflexivity);
    try (right; split; [first [left; reflexivity|right; reflexivity]
                       |first [left; reflexivity|right; reflexivity]]);
    destruct H as [H|[[H|H] [H'|H']]]; discriminate.
Qed.

Lemma filter_length_bound (l : list CodeRequest) :
  (List.length (filter isSuccess l) <= List.length l)%nat.
Proof.
  induction l as [|e l IH]; cbn; [lia|].
  destruct (isSuccess e); cbn; lia.
Qed.

Lemma percentage_bounds (s n : Z) :
  0 <= s <= n -> 0 < n ->
  0 <= Math_round (inject_Z s / inject_Z n * 100) <= 100.
Proof.
  intros Hs Hn.
  assert (Hnq : (0 < inject_Z n)%Q) by (unfold Qlt; cbn [Qnum Qden inject_Z]; lia).
  assert (H0 : (0 <= inject_Z s / inject_Z n)%Q).
  { apply Qle_shift_div_l; [exact Hnq|].
    rewrite Qmult_0_l. unfold Qle; cbn [Qnum Qden inject_Z]; lia. }
  assert (H1 : (inject_Z s / inject_Z n <= 1)%Q).
  { apply Qle_shift_div_r; [exact Hnq|].
    rewrite Qmult_1_l. unfold Qle; cbn [Qnum Qden inject_Z]; lia. }
  unfold Math_round. split.
  - change 0 with (Qfloor 0). apply Qfloor_resp_le.
    apply Qle_trans with (0 + 0)%Q; [discriminate|].
    apply Qplus_le_compat; [|discriminate].
    apply Qmult_le_0_compat; [exact H0|discriminate].
  - change 100 with (Qfloor (1 * 100 + (1 # 2))). apply Qfloor_resp_le.
    apply Qplus_le_l. apply Qmult_le_compat_r; [exact H1|discriminate].
Qed.

(** X14: the statistics card never shows nonsense: the number of codes
    lies between 0 and the length of the history, and the success rate is a
    whole number between 0 and 100; it is 0 for an empty history and for a
    history without a success, and 100 for a non-empty history of
    successes only. *)
Theorem statistics_bounds (a : App) :
  0 <= totalCodes a <= Z.of_nat (List.length (history a)) /\
  0 <= successRate a <= 100 /\
  (history a = [] -> successRate a = 0) /\
  (Forall (fun h => isSuccess h = false) (history a) -> successRate a = 0) /\
  (history a <> [] -> Forall (fun h => isSuccess h = true) (history a) ->
   successRate a = 100).
Proof.
  unfold totalCodes, successRate.
  pose proof (filter_length_bound (history a)) as Hle.
  set (s := Z.of_nat (List.length (filter isSuccess (history a)))) in *.
  set (n := Z.of_nat (List.length (history a))) in *.
  assert (Hs : 0 <= s <= n) by (unfold s, n; lia).
  split; [exact Hs|]. split; [|split; [|split]].
  - destruct (n >? 0) eqn:Hn; [|lia].
    apply percentage_bounds; [exact Hs|]. rewrite Z.gtb_ltb in Hn.
    apply Z.ltb_lt. exact Hn.
  - intros Hnil. unfold n. rewrite Hnil. reflexivity.
  - intros Hnone. destruct (n >? 0); [|reflexivity].
    assert (Hs0 : s = 0).
    { unfold s. clear -Hnone. induction Hnone as [|e l He _ IH]; [reflexivity|].
      cbn. rewrite He. exact IH. }
    rewrite Hs0. unfold Math_round.
    replace (Qfloor (inject_Z 0 / inject_Z n * 100 + (1 # 2))) with (Qfloor (1 # 2));
      [reflexivity|].
    apply Qfloor_comp. unfold Qdiv. rewrite !Qmult_0_l, Qplus_0_l. reflexivity.
  - intros Hne Hall.
    assert (Hsn : s = n).
    { unfold s, n. clear -Hall. induction Hall as [|e l He _ IH]; [reflexivity|].
      cbn [filter]. rewrite He. cbn [List.length]. lia. }
    assert (Hn : 0 < n).
    { unfold n. destruct (history a); [now elim Hne|cbn; lia]. }
    replace (n >? 0) with true by (symmetry; rewrite Z.gtb_ltb; apply Z.ltb_lt; exact Hn).
    rewrite Hsn. unfold Math_round.
    replace (Qfloor (inject_Z n / inject_Z n * 100 + (1 # 2)))
      with (Qfloor (100 + (1 # 2))); [reflexivity|].
    apply Qfloor_comp. unfold Qdiv. rewrite Qmult_inv_r; [reflexivity|].
    intros Hz. assert (Hq : (0 < inject_Z n)%Q) by (unfold Qlt; cbn [Qnum Qden inject_Z]; lia).
    rewrite Hz in Hq. discriminate Hq.
Qed.

Lemma seconds_of_ms (x : Z) :
  1000 * (Math_ceil (inject_Z x / 1000) - 1) < x <= 1000 * Math_ceil (inject_Z x / 1000).
Proof.
  unfold Math_ceil.
  assert (Hq : (inject_Z x / 1000 == x # 1000)%Q) by (unfold Qeq; cbn; lia).
  pose proof (Qle_ceiling (inject_Z x / 1000)) as Hup.
  pose proof (Qceiling_lt (inject_Z x / 1000)) as Hlo.
  set (c := Qceiling (inject_Z x / 1000)) in *.
  rewrite Hq in Hup, Hlo.
  unfold Qle in Hup. unfold Qlt in Hlo. cbn [Qnum Qden inject_Z] in Hup, Hlo.
  lia.
Qed.

(** X15: the label of the request button is computed at a render, from
    the time of that render. A render that takes place while no search is
    running, at most 60 000 ms after the last issuance (and not before
    it), disables the button and labels it "Aguarde n s", where n is the
    cooldown that remains at the time of the render, rounded up to whole
    seconds: between 0 and 60, and 0 only for a render exactly 60 000 ms
    after the issuance, which still disables the button. *)
Theorem wait_label (rendered : World) :
  state (app rendered) <> SEARCHING ->
  lastRequestTime (app rendered) <= clock rendered ->
  clock rendered - lastRequestTime (app rendered) <= 60000 ->
  exists seconds,
    requestLabel rendered = Aguarde seconds /\
    requestDisabled rendered = true /\
    0 <= seconds <= 60 /\
    1000 * (seconds - 1)
      < 60000 - (clock rendered - lastRequestTime (app rendered))
      <= 1000 * seconds /\
    (seconds = 0 <-> clock rendered - lastRequestTime (app rendered) = 60000).
Proof.
  intros Hs Hpast Hcool.
  assert (Hcan : canRequestCode rendered = false).
  { unfold canRequestCode, Date_now. rewrite Z.gtb_ltb. apply Z.ltb_ge. exact Hcool. }
  assert (Heqb : AppState_eqb (state (app rendered)) SEARCHING = false)
    by (destruct (state (app rendered)); try reflexivity; now elim Hs).
  unfold requestLabel, requestDisabled, Date_now. rewrite Heqb, Hcan. cbn [negb orb].
  pose proof (seconds_of_ms
                (60000 - (clock rendered - lastRequestTime (app rendered)))) as Hsec.
  eexists. split; [reflexivity|]. split; [reflexivity|].
  split; [lia|]. split; [exact Hsec|]. lia.
Qed.

Lemma wait_label_witness :
  requestLabel codeFoundWorld = Aguarde 57 /\
  exists seconds,
    requestLabel codeFoundWorld = Aguarde seconds /\
    requestDisabled codeFoundWorld = true /\
    0 <= seconds <= 60 /\
    1000 * (seconds - 1)
      < 60000 - (clock codeFoundWorld - lastRequestTime (app codeFoundWorld))
      <= 1000 * seconds /\
    (seconds = 0 <->
     clock codeFoundWorld - lastRequestTime (app codeFoundWorld) = 60000).
Proof.
  split; [by_running|].
  apply (wait_label codeFoundWorld).
  - vm_compute. discriminate.
  - vm_compute. discriminate.
  - vm_compute. discriminate.
Defined.

(** ** The code on display *)

Lemma codeLogged_same (a a' : App) :
  state a' = state a -> currentCode a' = currentCode a ->
  history a' = history a -> codeLogged a -> codeLogged a'.
Proof.
  unfold codeLogged. intros -> -> ->. auto.
Qed.

Lemma codeLogged_other (a : App) : state a <> FOUND -> codeLogged a.
Proof. intros Hne Hfound. now elim Hne. Qed.

Lemma codeLogged_requestSteamCode (rnd : list Q) (w : World) :
  codeLogged (app w) -> codeLogged (app (requestSteamCode rnd w)).
Proof.
  intros Hw. destruct (canRequestCode w) eqn:Hcan.
  - destruct (AppState_eqb (state (app w)) SEARCHING) eqn:Hs.
    + unfold requestSteamCode. rewrite Hcan, Hs. exact Hw.
    + rewrite requestSteamCode_accepted;
        [|exact Hcan|intros Heq; rewrite Heq in Hs; discriminate Hs].
      apply codeLogged_other. cbn. discriminate.
  - unfold requestSteamCode. rewrite Hcan. cbn [negb].
    revert Hw. apply codeLogged_same; reflexivity.
Qed.

Lemma codeLogged_runCallback (cb : Callback) (rnd : list Q) (w : World) :
  codeLogged (app w) -> codeLogged (app (runCallback cb rnd w)).
Proof.
  intros Hw. destruct cb as [|startTime| |s|]; cbn [runCallback].
  - revert Hw. apply codeLogged_same; reflexivity.
  - unfold progressTick, Date_now. cbv zeta.
    generalize (Z.max (45 - (clock w - startTime) / 1000) 0).
    generalize (Qmin (inject_Z (clock w - startTime) / 45000 * 100) 100).
    intros p remaining. destruct (remaining <=? 0).
    + apply codeLogged_other. cbn. discriminate.
    + revert Hw. apply codeLogged_same; reflexivity.
  - apply codeLogged_other. cbn. discriminate.
  - destruct (fst (Steam2FASimulator.simulateSearch_resume s rnd)) as [result|e].
    + rewrite lookupSettled_Ok. intros _. eexists. eexists.
      split; [reflexivity|]. split; reflexivity.
    + rewrite lookupSettled_Throws. apply codeLogged_other. cbn. discriminate.
  - apply codeLogged_other. cbn. discriminate.
Qed.

Lemma codeLogged_step (e : Event) (w w' : World) :
  step e w = Some w' -> codeLogged (app w) -> codeLogged (app w').
Proof.
  destruct e as [ms|rnd| | |h rnd|]; cbn [step].
  - destruct (0 <=? ms); [|discriminate]. intros Heq. injection Heq as <-. auto.
  - intros Heq. injection Heq as <-. rewrite app_saveHistory.
    apply codeLogged_requestSteamCode.
  - intros Heq. injection Heq as <-. intros _. rewrite app_saveHistory.
    rewrite resetInterface_clears, !app_clearTimer.
    apply codeLogged_other. cbn. discriminate.
  - intros Heq. injection Heq as <-. rewrite app_saveHistory.
    apply codeLogged_same; reflexivity.
  - unfold fire. destruct (findTimer h w) as [t|]; [|discriminate].
    destruct (due t <=? clock w); [|discriminate].
    destruct (every t) as [period|]; cbn [option_map];
      intros Heq; injection Heq as <-; intros Hw;
      autorewrite with frame; apply codeLogged_runCallback;
      autorewrite with frame; exact Hw.
  - unfold mount, loadHistory.
    destruct (storage w) as [[| |[items|]]|]; try discriminate;
      intros Heq; injection Heq as <-; intros _;
      rewrite app_saveHistory; apply codeLogged_other; cbn; discriminate.
Qed.

(** X16: whenever the component is in [FOUND], the code it displays is the
    code of the newest entry of the history, and that entry is a success:
    the first row of the recent history reads the displayed code, and the
    count of codes is at least 1. *)
Theorem displayed_code_is_logged (w : World) :
  reachable w ->
  state (app w) = FOUND ->
  exists newest older,
    history (app w) = newest :: older /\
    status newest = success /\
    code newest = currentCode (app w) /\
    hd_error (recentCodes (app w)) = Some (currentCode (app w)) /\
    1 <= totalCodes (app w).
Proof.
  intros Hreach Hfound.
  assert (Hlog : codeLogged (app w)).
  { clear Hfound. induction Hreach as [now w Hmount|e w w' _ IH Hstep].
    - injection Hmount as <-. apply codeLogged_other. cbn. discriminate.
    - exact (codeLogged_step e w w' Hstep IH). }
  destruct (Hlog Hfound) as (newest & older & Hh & Hst & Hcode).
  exists newest, older. split; [exact Hh|]. split; [exact Hst|].
  split; [exact Hcode|].
  unfold recentCodes, totalCodes, isSuccess. rewrite Hh. cbn [firstn map hd_error filter].
  rewrite Hst, Hcode. cbn [List.length]. split; [reflexivity|lia].
Qed.

Lemma displayed_code_is_logged_witness :
  exists newest older,
    history (app foundWorld) = newest :: older /\
    status newest = success /\
    code newest = currentCode (app foundWorld) /\
    hd_error (recentCodes (app foundWorld)) = Some (currentCode (app foundWorld)) /\
    1 <= totalCodes (app foundWorld).
Proof.
  apply (displayed_code_is_logged foundWorld).
  - exact reachable_foundWorld.
  - reflexivity.
Defined.

(** ** Loading the page again *)

(** X17: in every reachable world the page can be loaded again (the store
    holds nothing, or text the load effect accepts), and the load keeps
    the history and the store and nothing else: the component starts over
    in [IDLE] with no code, no pending timer and the last issuance time
    back at 0, so that the request button is enabled again, whatever the
    cooldown was. *)
Theorem reload_keeps_history_only (w : World) :
  reachable w ->
  60000 < clock w ->
  exists w',
    step Reload w = Some w' /\
    app w' = mkApp IDLE "" 0 0 (history (app w)) false "" 0 None None /\
    storage w' = storage w /\
    timers w' = [] /\
    clock w' = clock w /\
    requestDisabled w' = false.
Proof.
  intros Hreach Hclock. pose proof (reachable_synced w Hreach) as Hsync.
  unfold synced in Hsync. cbn [step]. unfold mount, loadHistory. cbv zeta.
  cbn [storage]. rewrite Hsync.
  assert (Hen : forall h sto,
             requestDisabled (mkWorld (mkApp IDLE "" 0 0 h false "" 0 None None)
                                [] 1%positive (clock w) sto) = false).
  { intros h sto. unfold requestDisabled, canRequestCode, Date_now.
    cbn [app state lastRequestTime clock AppState_eqb orb].
    replace (clock w - 0 >? 60000) with true; [reflexivity|].
    symmetry. rewrite Z.gtb_ltb. apply Z.ltb_lt. lia. }
  destruct (history (app w)) as [|e h] eqn:Hh.
  - eexists. split; [reflexivity|].
    split; [reflexivity|]. split; [reflexivity|]. split; [reflexivity|].
    split; [reflexivity|]. apply Hen.
  - eexists. split; [reflexivity|].
    unfold saveHistory, setHistory, onApp.
    cbn [app history timers nextHandle clock storage initialApp state currentCode
         progress timeRemaining showHistory notification lastRequestTime
         intervalRef timeoutRef].
    rewrite revive_id.
    replace (0 <? Z.of_nat (List.length (e :: h))) with true
      by (symmetry; apply Z.ltb_lt; cbn [List.length]; lia).
    cbn [app storage timers clock].
    split; [reflexivity|]. split; [reflexivity|]. split; [reflexivity|].
    split; [reflexivity|]. apply Hen.
Qed.

Lemma reload_keeps_history_only_witness :
  requestDisabled foundWorld = true /\
  exists w',
    step Reload foundWorld = Some w' /\
    app w' = mkApp IDLE "" 0 0 (history (app foundWorld)) false "" 0 None None /\
    storage w' = storage foundWorld /\
    timers w' = [] /\
    clock w' = clock foundWorld /\
    requestDisabled w' = false.
Proof.
  split; [reflexivity|].
  apply (reload_keeps_history_only foundWorld).
  - exact reachable_foundWorld.
  - reflexivity.
Defined.
